(** * Jovimetrix: the media capture and streaming subsystem (sup/stream.py)

    A shallow embedding of [MediaStream], [StreamManager] and
    [StreamingHandler], and the properties of the capture loop, the
    registry and the HTTP handler that the specification states.

    Python objects are records, methods are computations in a state and
    exception monad over the object and the outside world, and the
    calls that leave the process (opening or releasing a capture
    device, logging, sleeping, writing to a socket) are recorded in a
    trace. *)

From Stdlib Require Import ZArith QArith List String Ascii Bool Lia.
Import ListNotations.
Local Open Scope Z_scope.

(** ** Exceptions and the state monad *)

Inductive Exn : Type :=
| AttributeError      (* a method looked up on [None] *)
| ZeroDivisionError   (* [1. / 0] *)
| cv2_error           (* an OpenCV assertion *)
| BrokenPipeError.    (* a write to a connection the client has left *)

Inductive Result (A : Type) : Type :=
| Ok (a : A)
| Raise (e : Exn).
Arguments Ok {A} a.
Arguments Raise {A} e.

(** A computation reads and writes a state [S]; what it wrote before an
    exception stays written, as in Python. *)
Definition Py (S A : Type) : Type := S -> Result A * S.

Definition ret {S A} (a : A) : Py S A := fun s => (Ok a, s).

Definition bind {S A B} (c : Py S A) (k : A -> Py S B) : Py S B :=
  fun s => match c s with
           | (Ok a, s') => k a s'
           | (Raise e, s') => (Raise e, s')
           end.

Definition raise {S A} (e : Exn) : Py S A := fun s => (Raise e, s).

(** [try: c except: h] with a bare [except]. *)
Definition try_except {S A} (c : Py S A) (h : Py S A) : Py S A :=
  fun s => match c s with
           | (Ok a, s') => (Ok a, s')
           | (Raise _, s') => h s'
           end.

Declare Scope py_scope.
Delimit Scope py_scope with py.
Notation "x <- c ;; k" := (bind c (fun x => k))
  (at level 61, c at next level, right associativity) : py_scope.
Notation "c ;; k" := (bind c (fun _ => k))
  (at level 61, right associativity) : py_scope.
Local Open Scope py_scope.

(** ** Identifiers, log lines and the trace *)

(** [url : int | str]. *)
Inductive Url : Type :=
| Index (i : Z)
| Address (s : string).

Definition Url_eqb (a b : Url) : bool :=
  match a, b with
  | Index i, Index j => Z.eqb i j
  | Address s, Address t => String.eqb s t
  | _, _ => false
  end.

Inductive Level : Type := INFO | WARN | ERR.

(** The log lines of the module, by their fixed text. *)
Inductive Line : Type :=
| CAPTURE        (* "[MediaStream] CAPTURE (url)" *)
| CAPTURE_FAIL   (* "[MediaStream] CAPTURE FAIL (url) " *)
| CAPTURED       (* "[MediaStream] CAPTURED (url)" *)
| PAUSED         (* "[MediaStream] PAUSED (url)" *)
| RELEASED       (* "[MediaStream] RELEASED (url)" *)
| TIMEOUT        (* "[MediaStream] TIMEOUT (url)" *)
| STOPPED        (* "[MediaStream] STOPPED (url)" *)
| SCAN           (* "[StreamManager] SCAN (seconds)" *)
| STREAM_LIST    (* "[StreamManager] STREAM [keys]" *)
| HTTP_ERROR.    (* "Error: (exception)" *)

Inductive Event : Type :=
| Log (lv : Level) (l : Line) (u : option Url)
| EvOpen (u : Url) (api : Z)      (* cv2.VideoCapture(url, api) *)
| EvRelease (u : Url)             (* source.release() *)
| EvSeek (u : Url) (p : Z)        (* source.set(CAP_PROP_POS_FRAMES, p) *)
| EvSleep (d : Q).                (* time.sleep(d) *)

(** ** Images and OpenCV *)

(** What an image shows; resampling keeps it. *)
Inductive Picture : Type :=
| Black
| Shot (n : nat).

(** A numpy array of [shape = (rows, cols, channels)]. *)
Record Image : Type := mkImage {
  rows : Z;
  cols : Z;
  channels : Z;
  picture : Picture
}.

Definition shape (im : Image) : Z * Z * Z := (rows im, cols im, channels im).

(** [np.zeros((r, c, ch), dtype=np.uint8)] *)
Definition np_zeros (r c ch : Z) : Image := mkImage r c ch Black.

(** [np.clip(x, lo, hi)] on integers. *)
Definition np_clip (x lo hi : Z) : Z := Z.min (Z.max x lo) hi.

(** [cv2.resize(src, dsize)]: OpenCV reads [dsize] as (width, height)
    and returns an array of [dsize[1]] rows and [dsize[0]] columns; an
    empty source or an empty [dsize] fails its assertion. *)
Definition cv2_resize (src : Image) (dsize : Z * Z) : Result Image :=
  let '(w, h) := dsize in
  if (w <=? 0) || (h <=? 0) || (rows src <=? 0) || (cols src <=? 0)
  then Raise cv2_error
  else Ok (mkImage h w (channels src) (picture src)).

(** A [cv2.VideoCapture] object over a finite sequence of frames.
    A capture that is not open reads nothing, reports 0 for every
    property and ignores [set]. *)
Record VideoCapture : Type := mkVideoCapture {
  opened : bool;
  frames : list Image;
  pos : nat;
  cap_fps : Q
}.

Definition vc_isOpened (v : VideoCapture) : bool := opened v.

Definition vc_release (v : VideoCapture) : VideoCapture :=
  mkVideoCapture false (frames v) (pos v) (cap_fps v).

(** [source.read()] *)
Definition vc_read (v : VideoCapture) : bool * option Image * VideoCapture :=
  if opened v then
    match nth_error (frames v) (pos v) with
    | Some im => (true, Some im, mkVideoCapture true (frames v) (S (pos v)) (cap_fps v))
    | None => (false, None, v)
    end
  else (false, None, v).

(** [source.get(cv2.CAP_PROP_FRAME_COUNT)], [CAP_PROP_POS_FRAMES], [CAP_PROP_FPS] *)
Definition vc_frame_count (v : VideoCapture) : Z :=
  if opened v then Z.of_nat (List.length (frames v)) else 0.
Definition vc_pos_frames (v : VideoCapture) : Z :=
  if opened v then Z.of_nat (pos v) else 0.
Definition vc_fps (v : VideoCapture) : Q :=
  if opened v then cap_fps v else 0%Q.

(** [source.set(cv2.CAP_PROP_POS_FRAMES, p)] *)
Definition vc_seek (v : VideoCapture) (p : Z) : VideoCapture :=
  if opened v then mkVideoCapture true (frames v) (Z.to_nat p) (cap_fps v) else v.

Definition CAP_ANY : Z := 0.

(** ** The outside world *)

(** What the host answers: the capture object [cv2.VideoCapture(url, api)]
    builds, the reading of the k-th call of [time.time()], and [int(s)]
    on a string ([None] for [ValueError]). *)
Record Host : Type := mkHost {
  cv2_VideoCapture : Url -> Z -> VideoCapture;
  clock_reading : nat -> Q;
  int_of_str : string -> option Z
}.

Record World : Type := mkWorld {
  clock : nat;            (* calls of time.time() so far *)
  trace : list Event      (* newest first *)
}.

Definition world0 : World := mkWorld 0 [].

(** The events in the order they happened. *)
Definition history (w : World) : list Event := rev (trace w).

(** ** MediaStream *)

Record MediaStream : Type := mkMediaStream {
  source : option VideoCapture;   (* __source *)
  quit : bool;                    (* __quit *)
  paused : bool;                  (* __paused *)
  ret_flag : bool;                (* __ret *)
  backend : list Z;               (* __backend *)
  frame_buf : Image;              (* __frame *)
  fps : Q;                        (* __fps *)
  size : Z * Z;                   (* __size = (height, width) *)
  mode : string;                  (* __mode *)
  url : Url;                      (* __url *)
  running : option bool           (* __running, bound on a failed capture only *)
}.

Definition set_source v (s : MediaStream) :=
  mkMediaStream v (quit s) (paused s) (ret_flag s) (backend s) (frame_buf s)
                (fps s) (size s) (mode s) (url s) (running s).
Definition set_quit b (s : MediaStream) :=
  mkMediaStream (source s) b (paused s) (ret_flag s) (backend s) (frame_buf s)
                (fps s) (size s) (mode s) (url s) (running s).
Definition set_paused b (s : MediaStream) :=
  mkMediaStream (source s) (quit s) b (ret_flag s) (backend s) (frame_buf s)
                (fps s) (size s) (mode s) (url s) (running s).
Definition set_ret b (s : MediaStream) :=
  mkMediaStream (source s) (quit s) (paused s) b (backend s) (frame_buf s)
                (fps s) (size s) (mode s) (url s) (running s).
Definition set_frame im (s : MediaStream) :=
  mkMediaStream (source s) (quit s) (paused s) (ret_flag s) (backend s) im
                (fps s) (size s) (mode s) (url s) (running s).
Definition set_fps q (s : MediaStream) :=
  mkMediaStream (source s) (quit s) (paused s) (ret_flag s) (backend s) (frame_buf s)
                q (size s) (mode s) (url s) (running s).
Definition set_size_field sz (s : MediaStream) :=
  mkMediaStream (source s) (quit s) (paused s) (ret_flag s) (backend s) (frame_buf s)
                (fps s) sz (mode s) (url s) (running s).
Definition set_running r (s : MediaStream) :=
  mkMediaStream (source s) (quit s) (paused s) (ret_flag s) (backend s) (frame_buf s)
                (fps s) (size s) (mode s) (url s) r.

(** A method of an object of type [O] runs on the object and the world. *)
Definition Method (O A : Type) : Type := Py (O * World) A.

Definition self {O} : Method O O := fun s => (Ok (fst s), s).
Definition update {O} (f : O -> O) : Method O unit :=
  fun s => (Ok tt, (f (fst s), snd s)).
Definition emit {O} (e : Event) : Method O unit :=
  fun s => (Ok tt, (fst s, mkWorld (clock (snd s)) (e :: trace (snd s)))).
Definition lift {O A} (r : Result A) : Method O A := fun s => (r, s).

Definition loginfo {O} (l : Line) (u : option Url) : Method O unit := emit (Log INFO l u).
Definition logwarn {O} (l : Line) (u : option Url) : Method O unit := emit (Log WARN l u).
Definition logerr {O} (l : Line) (u : option Url) : Method O unit := emit (Log ERR l u).

(** [time.sleep(d)] *)
Definition time_sleep {O} (d : Q) : Method O unit := emit (EvSleep d).

(** *** The size property *)

(** [x or 512] on an [int] that may be [None]. *)
Definition or_512 (x : option Z) : Z :=
  match x with
  | None => 512
  | Some v => if v =? 0 then 512 else v
  end.

(** [size or (512, 512)]: a pair is never falsy, [None] is. *)
Definition size_or_default (sz : option (option Z * option Z)) : option Z * option Z :=
  match sz with
  | None => (Some 512, Some 512)
  | Some p => p
  end.

(** [@size.setter] *)
Definition size_setter (sz : option (option Z * option Z)) : Method MediaStream unit :=
  let sz := size_or_default sz in
  let width := np_clip (or_512 (fst sz)) 0 8192 in
  let height := np_clip (or_512 (snd sz)) 0 8192 in
  update (set_size_field (height, width)) ;;
  s <- self ;;
  im <- lift (cv2_resize (frame_buf s) (size s)) ;;
  update (set_frame im).

(** [@property size] *)
Definition size_getter : Method MediaStream (Z * Z) :=
  s <- self ;; ret (size s).

(** *** Numbers *)

(** Truth of a float: anything but zero. *)
Definition truthy (q : Q) : bool := negb (Qeq_bool q 0).

(** [x or d] on a float that may be [None]. *)
Definition or_else (x : option Q) (d : Q) : Q :=
  match x with
  | None => d
  | Some q => if truthy q then q else d
  end.

(** [max(a, b)]: the first of the largest. *)
Definition py_max (a b : Q) : Q := if Qle_bool b a then a else b.

(** [a / b] *)
Definition py_div (a b : Q) : Result Q :=
  if Qeq_bool b 0 then Raise ZeroDivisionError else Ok (a / b)%Q.

Section WithHost.

Variable host : Host.

(** [time.time()] *)
Definition time_time {O} : Method O Q :=
  fun s => (Ok (clock_reading host (clock (snd s))),
            (fst s, mkWorld (S (clock (snd s))) (trace (snd s)))).

(** *** Construction *)

(** [int(url)] under [try ... except ValueError: pass]. *)
Definition resolve_url (u : Url) : Url :=
  match u with
  | Index i => Index i
  | Address s => match int_of_str host s with
                 | Some n => Index n
                 | None => Address s
                 end
  end.

(** [[backend] if backend else [cv2.CAP_ANY]] *)
Definition backend_list (b : option Z) : list Z :=
  match b with
  | None => [CAP_ANY]
  | Some x => if x =? 0 then [CAP_ANY] else [x]
  end.

(** [MediaStream.__init__].  The fields are bound in the order of the
    source up to the size setter, which may raise; [__size] is unbound
    until the setter stores it.  The polling thread the constructor
    starts is [run] below. *)
Definition MediaStream_init (u : Url) (sz : option (option Z * option Z))
    (f : option Q) (m : string) (b : option Z) : Py World MediaStream :=
  fun w =>
    let s0 := mkMediaStream None false true false (backend_list b)
                (np_zeros 1 1 3) (or_else f 60) (0, 0) m (resolve_url u) None in
    match size_setter sz (s0, w) with
    | (Ok _, (s, w')) => (Ok s, w')
    | (Raise e, (_, w')) => (Raise e, w')
    end.

(** *** capture, pause, release, frame, isOpen *)

(** [self.__source.<method>]: an attribute of [None] raises. *)
Definition the_source : Method MediaStream VideoCapture :=
  s <- self ;;
  match source s with
  | Some v => ret v
  | None => raise AttributeError
  end.

(** [@property isOpen] *)
Definition isOpen : Method MediaStream bool :=
  s <- self ;;
  match source s with
  | None => ret false
  | Some v => ret (vc_isOpened v)
  end.

(** [self.__source and self.__source.isOpened()] *)
Definition already_open (s : MediaStream) : bool :=
  match source s with
  | Some v => vc_isOpened v
  | None => false
  end.

(** The loop [for x in self.__backend] of [capture]; the value is [found]. *)
Fixpoint open_first (apis : list Z) : Method MediaStream bool :=
  match apis with
  | [] => ret false
  | x :: rest =>
      s <- self ;;
      emit (EvOpen (url s) x) ;;
      update (set_source (Some (cv2_VideoCapture host (url s) x))) ;;
      v <- the_source ;;
      if vc_isOpened v then ret true else open_first rest
  end.

(** [MediaStream.capture(size=None, fps=60)] *)
Definition capture (sz : option (option Z * option Z)) (f : option Q)
  : Method MediaStream unit :=
  s <- self ;;
  if already_open s
  then update (set_paused false)
  else
    loginfo CAPTURE (Some (url s)) ;;
    found <- open_first (backend s) ;;
    if negb found then
      logerr CAPTURE_FAIL (Some (url s)) ;;
      update (set_running (Some false))
    else
      time_sleep 1 ;;
      s <- self ;;
      rate <- (if truthy (fps s) then ret (fps s)
               else v <- the_source ;; ret (vc_fps v)) ;;
      update (set_fps (py_max 1 rate)) ;;
      update (set_paused false) ;;
      loginfo CAPTURED (Some (url s)).

(** [stream.capture()] *)
Definition capture_ : Method MediaStream unit := capture None (Some 60%Q).

(** [MediaStream.pause] *)
Definition pause : Method MediaStream unit :=
  update (set_paused true) ;;
  s <- self ;;
  logwarn PAUSED (Some (url s)).

(** [MediaStream.release] *)
Definition release : Method MediaStream unit :=
  s <- self ;;
  match source s with
  | None => ret tt
  | Some v =>
      emit (EvRelease (url s)) ;;
      update (set_source (Some (vc_release v))) ;;
      logwarn RELEASED (Some (url s))
  end.

(** [@property frame] *)
Definition frame : Method MediaStream (bool * Image) :=
  s <- self ;; ret (ret_flag s, frame_buf s).

(** *** The polling loop *)

(** The local variables of [__run] that live across iterations. *)
Record Locals : Type := mkLocals {
  waste : option Q;
  timeout : option Q
}.

Definition unbound : Locals := mkLocals None None.

(** [try: self.__ret, newframe = self.__source.read()
     except: self.__ret = False] *)
Definition read_frame : Method MediaStream (option Image) :=
  try_except
    (v <- the_source ;;
     let '(ok, im, v') := vc_read v in
     update (set_source (Some v')) ;;
     update (set_ret ok) ;;
     ret im)
    (update (set_ret false) ;; ret None).

(** The branch of a good read: fit the frame to [__size] and store it. *)
Definition store_frame (newframe : Image) : Method MediaStream unit :=
  s <- self ;;
  let width := rows newframe in
  let height := cols newframe in
  fitted <- (if negb (width =? snd (size s)) || negb (height =? fst (size s))
             then lift (cv2_resize newframe (size s))
             else ret newframe) ;;
  update (set_frame fitted).

(** The part of a failed read that rewinds a source at its end. *)
Definition rewind_at_end : Method MediaStream unit :=
  v <- the_source ;;
  let count := vc_frame_count v in
  let p := vc_pos_frames v in
  if count <=? p then
    s <- self ;;
    emit (EvSeek (url s) 0) ;;
    update (set_source (Some (vc_seek v 0)))
  else ret tt.

(** The part of a failed read that watches for a closed source. *)
Definition watch_stall (timeout : option Q) : Method MediaStream (option Q) :=
  v <- the_source ;;
  if negb (vc_isOpened v) then
    match timeout with
    | None => t <- time_time ;; ret (Some t)
    | Some t0 =>
        t <- time_time ;;
        if negb (Qle_bool (t - t0) 2) then
          v <- the_source ;;
          s <- self ;;
          emit (EvRelease (url s)) ;;
          update (set_source (Some (vc_release v))) ;;
          logwarn TIMEOUT (Some (url s)) ;;
          capture_ ;;
          ret timeout
        else ret timeout
    end
  else ret timeout.

(** One turn of [while not self.__quit]. *)
Definition run_body (loc : Locals) : Method MediaStream Locals :=
  t0 <- time_time ;;
  s <- self ;;
  period <- lift (py_div 1 (fps s)) ;;
  let waste := (t0 + period)%Q in
  let timeout := @None Q in
  timeout <-
    (if negb (paused s) then
       newframe <- read_frame ;;
       s <- self ;;
       match ret_flag s, newframe with
       | true, Some im =>
           let timeout := @None Q in
           store_frame im ;; ret timeout
       | _, _ =>
           (if negb (ret_flag s) then rewind_at_end else ret tt) ;;
           watch_stall timeout
       end
     else ret timeout) ;;
  t1 <- time_time ;;
  let waste := py_max (waste - t1) 0 in
  time_sleep waste ;;
  ret (mkLocals (Some waste) timeout).

(** [MediaStream.__run], for at most [n] turns; the value tells whether
    the loop ended. *)
Fixpoint run (n : nat) (loc : Locals) : Method MediaStream bool :=
  match n with
  | O => ret false
  | S n' =>
      s <- self ;;
      if quit s then
        loginfo STOPPED (Some (url s)) ;; ret true
      else
        loc' <- run_body loc ;; run n' loc'
  end.

End WithHost.

(** ** Dictionaries *)

(** A [dict] in insertion order. *)
Section Dict.

Context {K V : Type} (eqb : K -> K -> bool).

Fixpoint dict_get (k : K) (d : list (K * V)) : option V :=
  match d with
  | [] => None
  | (k', v) :: rest => if eqb k k' then Some v else dict_get k rest
  end.

Fixpoint dict_set (k : K) (v : V) (d : list (K * V)) : list (K * V) :=
  match d with
  | [] => [(k, v)]
  | (k', v') :: rest =>
      if eqb k k' then (k', v) :: rest else (k', v') :: dict_set k v rest
  end.

Definition dict_keys (d : list (K * V)) : list K := map fst d.
Definition dict_values (d : list (K * V)) : list V := map snd d.

End Dict.

(** ** StreamManager *)

(** [StreamManager.STREAM] *)
Definition Registry : Type := list (Url * MediaStream).

(** [range(5)] *)
Definition range5 : list Z := [0; 1; 2; 3; 4].

(** A method called on an object held in a local variable. *)
Definition on_local {O A} (o : MediaStream) (m : Method MediaStream A)
  : Method O (A * MediaStream) :=
  fun s => match m (o, snd s) with
           | (Ok a, (o', w')) => (Ok (a, o'), (fst s, w'))
           | (Raise e, (_, w')) => (Raise e, (fst s, w'))
           end.

(** A method called on the object stored under [k]: the registry holds
    the object itself, so what the method wrote is seen there. *)
Definition on_entry {A} (k : Url) (o : MediaStream) (m : Method MediaStream A)
  : Method Registry A :=
  fun s => match m (o, snd s) with
           | (r, (o', w')) => (r, (dict_set Url_eqb k o' (fst s), w'))
           end.

Section Manager.

Variable host : Host.

(** [MediaStream(i)] *)
Definition new_stream {O} (u : Url) (sz : option (option Z * option Z))
    (f : option Q) (b : option Z) : Method O MediaStream :=
  fun s => match MediaStream_init host u sz f "FIT" b (snd s) with
           | (r, w') => (r, (fst s, w'))
           end.

(** The loop [for i in range(5)] of [devicescan]. *)
Fixpoint probe (capture : bool) (indices : list Z) : Method Registry unit :=
  match indices with
  | [] => ret tt
  | i :: rest =>
      stream <- new_stream (Index i) None None None ;;
      if capture then
        r <- on_local stream (capture_ host) ;;
        r <- on_local (snd r) isOpen ;;
        if negb (fst r) then ret tt
        else update (dict_set Url_eqb (Index i) (snd r)) ;; probe capture rest
      else
        update (dict_set Url_eqb (Index i) stream) ;; probe capture rest
  end.

(** [for stream in StreamManager.STREAM.values(): stream.release()] *)
Fixpoint release_each (keys : list Url) : Method Registry unit :=
  match keys with
  | [] => ret tt
  | k :: rest =>
      d <- self ;;
      match dict_get Url_eqb k d with
      | Some o => on_entry k o release
      | None => ret tt
      end ;;
      release_each rest
  end.

(** [StreamManager.devicescan].  The first loop, [del stream] on a loop
    variable, unbinds the variable only and is left out. *)
Definition devicescan (capture : bool) : Method Registry unit :=
  update (fun _ => []) ;;
  start <- time_time host ;;
  probe capture range5 ;;
  (if capture then
     d <- self ;; release_each (dict_keys d)
   else ret tt) ;;
  stop <- time_time host ;;
  loginfo SCAN None.

(** [StreamManager.__init__] *)
Definition StreamManager_init (autoscan : bool) : Method Registry unit :=
  devicescan autoscan ;;
  loginfo STREAM_LIST None.

(** [StreamManager.streams] *)
Definition streams : Method Registry (list Url) :=
  d <- self ;; ret (dict_keys d).

(** [StreamManager.active] *)
Definition active : Method Registry (list MediaStream) :=
  d <- self ;;
  ret (filter (fun o => match source o with
                        | Some v => vc_isOpened v
                        | None => false
                        end) (dict_values d)).

(** [StreamManager.frame] *)
Definition StreamManager_frame (u : Url) : Method Registry (bool * Image) :=
  d <- self ;;
  match dict_get Url_eqb u d with
  | None => ret (false, np_zeros 512 512 3)
  | Some stream => on_entry u stream frame
  end.

(** [StreamManager.capture] *)
Definition StreamManager_capture (u : Url) (sz : option (option Z * option Z))
    (f : option Q) (b : option Z) : Method Registry MediaStream :=
  d <- self ;;
  stream <- match dict_get Url_eqb u d with
            | None =>
                stream <- new_stream u sz f b ;;
                update (dict_set Url_eqb u stream) ;;
                ret stream
            | Some stream => ret stream
            end ;;
  on_entry u stream (capture_ host) ;;
  d <- self ;;
  match dict_get Url_eqb u d with
  | Some stream => ret stream
  | None => ret stream
  end.

(** [StreamManager.pause]: the walrus binds [stream] to the result of
    [get], and the body runs when that result [is None]. *)
Definition StreamManager_pause (u : Url) : Method Registry unit :=
  d <- self ;;
  match dict_get Url_eqb u d with
  | None => raise AttributeError        (* None.pause() *)
  | Some stream => ret tt
  end.

End Manager.

(** ** StreamingHandler *)

(** Text is a sequence of code points below 256: [http.server] decodes
    the request line as latin-1, so a path holds nothing else, and a
    registered name with a code point beyond can equal no path. *)

(** [str.lower()] on one such code point: A-Z, and the capitals
    U+00C0..U+00DE of latin-1 but the sign U+00D7, move up by 32. *)
Definition lower_char (c : ascii) : ascii :=
  let n := nat_of_ascii c in
  if ((Nat.leb 65 n && Nat.leb n 90)
      || (Nat.leb 192 n && Nat.leb n 222 && negb (Nat.eqb n 215)))%bool
  then ascii_of_nat (n + 32) else c.

(** [str.lower()] *)
Fixpoint lower (s : string) : string :=
  match s with
  | EmptyString => EmptyString
  | String c rest => String (lower_char c) (lower rest)
  end.

(** An entry of [StreamingServer.OUT]: [{'_': stream, 'b': frame}]; the
    stream is named by its key. *)
Record Endpoint : Type := mkEndpoint {
  ep_stream : Url;
  ep_b : option Image
}.

(** [StreamingServer.endpointAdd] *)
Definition endpointAdd (name : string) (stream : Url)
    (out : list (string * Endpoint)) : list (string * Endpoint) :=
  dict_set String.eqb name (mkEndpoint stream None) out.

(** What a handler puts on the connection. *)
Inductive Wire : Type :=
| StatusLine (code : Z)                    (* the status line, Server and Date of send_response(code) *)
| Header (name : string) (value : string)  (* send_header(name, value) *)
| ContentLength (jpeg : Image)             (* send_header('Content-Length', len(jpeg)) *)
| EndHeaders                               (* the blank line of end_headers() *)
| Boundary                                 (* b'--frame\r\n' *)
| Jpeg (im : Image)                        (* jpeg.tobytes() *)
| CRLF.                                    (* b'\r\n' *)

(** [request_version]: 'HTTP/0.9' for a request line without a version,
    'HTTP/1.0' or 'HTTP/1.1' otherwise. *)
Inductive Version : Type := HTTP_0_9 | HTTP_1_x.

(** The handler of one request.  [credit] is how many more writes the
    client takes before the connection breaks ([None]: it never does);
    a write to a broken connection raises and leaves nothing on it. *)
Record Handler : Type := mkHandler {
  path : string;
  request_version : Version;
  outputs : list (string * Endpoint);      (* __outputs *)
  headers_buffer : list Wire;              (* _headers_buffer *)
  wfile : list Wire;                       (* what was written, newest first *)
  credit : option nat
}.

(** A request for [p] as the server hands it to the handler. *)
Definition fresh_request (p : string) (v : Version)
    (out : list (string * Endpoint)) (c : option nat) : Handler :=
  mkHandler p v out [] [] c.

(** [self.wfile.write(block)] *)
Definition wfile_write (block : list Wire) : Method Handler unit :=
  h <- self ;;
  match credit h with
  | Some O => raise BrokenPipeError
  | Some (S n) =>
      update (fun h => mkHandler (path h) (request_version h) (outputs h)
                         (headers_buffer h) (rev block ++ wfile h) (Some n))
  | None =>
      update (fun h => mkHandler (path h) (request_version h) (outputs h)
                         (headers_buffer h) (rev block ++ wfile h) None)
  end.

(** The lines [send_response_only] and [send_header] append to
    [_headers_buffer], unless the request is HTTP/0.9. *)
Definition buffer_header (x : Wire) : Method Handler unit :=
  h <- self ;;
  match request_version h with
  | HTTP_0_9 => ret tt
  | HTTP_1_x =>
      update (fun h => mkHandler (path h) (request_version h) (outputs h)
                         (headers_buffer h ++ [x]) (wfile h) (credit h))
  end.

(** [send_response(code)], [send_header(name, value)]; the line
    [send_response] logs on stderr is not part of the trace. *)
Definition send_response (code : Z) : Method Handler unit :=
  buffer_header (StatusLine code).
Definition send_header (name value : string) : Method Handler unit :=
  buffer_header (Header name value).
Definition send_content_length (jpeg : Image) : Method Handler unit :=
  buffer_header (ContentLength jpeg).

(** [flush_headers()]: one write of the joined buffer. *)
Definition flush_headers : Method Handler unit :=
  h <- self ;;
  wfile_write (headers_buffer h) ;;
  update (fun h => mkHandler (path h) (request_version h) (outputs h)
                     [] (wfile h) (credit h)).

(** [end_headers()]: nothing for HTTP/0.9. *)
Definition end_headers : Method Handler unit :=
  h <- self ;;
  match request_version h with
  | HTTP_0_9 => ret tt
  | HTTP_1_x => buffer_header EndHeaders ;; flush_headers
  end.

(** [cv2.imencode('.jpg', frame)]: an empty image fails its assertion. *)
Definition cv2_imencode (frame : Image) : Result Image :=
  if (rows frame <=? 0) || (cols frame <=? 0) then Raise cv2_error else Ok frame.

(** What one turn of the streaming loop finds cached under ['b']. *)
Record Tick : Type := mkTick {
  cached : option Image
}.

Inductive Outcome : Type :=
| Returned     (* do_GET is over; the server closes the connection *)
| Streaming.   (* still inside [while True] *)

(** The body of [try] in the loop of [do_GET], for a cached frame. *)
Definition write_part (frame : Image) : Method Handler unit :=
  jpeg <- lift (cv2_imencode frame) ;;
  wfile_write [Boundary] ;;
  send_header "Content-Type" "image/jpeg" ;;
  send_content_length jpeg ;;
  end_headers ;;
  wfile_write [Jpeg jpeg] ;;
  wfile_write [CRLF].

(** The loop [while True] of [do_GET], one [Tick] a turn; an exception
    in a turn is logged and ends the loop. *)
Fixpoint stream_loop (ticks : list Tick) : Method Handler Outcome :=
  match ticks with
  | [] => ret Streaming
  | t :: rest =>
      match cached t with
      | None => stream_loop rest
      | Some frame =>
          went <- try_except (write_part frame ;; ret true)
                             (logerr HTTP_ERROR None ;; ret false) ;;
          if went then stream_loop rest else ret Returned
      end
  end.

(** [StreamingHandler.do_GET] *)
Definition do_GET (ticks : list Tick) : Method Handler Outcome :=
  h <- self ;;
  let key := lower (path h) in
  match dict_get String.eqb key (outputs h) with
  | None => ret Returned
  | Some data =>
      send_response 200 ;;
      send_header "Content-Type" "multipart/x-mixed-replace; boundary=frame" ;;
      end_headers ;;
      stream_loop ticks
  end.

(** ** What a run leaves behind *)

(** The object and the world after a method call. *)
Definition after {O A} (r : Result A * (O * World)) : O := fst (snd r).
Definition world_after {O A} (r : Result A * (O * World)) : World := snd (snd r).
Definition outcome {O A} (r : Result A * (O * World)) : Result A := fst r.

(** The events a call added to the trace of [w], oldest first. *)
Definition added (w w' : World) : list Event :=
  rev (firstn (List.length (trace w') - List.length (trace w)) (trace w')).

Definition is_error (e : Event) : bool :=
  match e with Log ERR _ _ => true | _ => false end.

(** How many errors a list of events logs. *)
Definition errors (evs : list Event) : nat := List.length (filter is_error evs).

Definition is_release (e : Event) : bool :=
  match e with EvRelease _ => true | _ => false end.

Definition is_open (e : Event) : bool :=
  match e with EvOpen _ _ => true | _ => false end.

(** The sources opened, and the sources released, in a list of events. *)
Fixpoint probed (evs : list Event) : list Url :=
  match evs with
  | [] => []
  | EvOpen u _ :: rest => u :: probed rest
  | _ :: rest => probed rest
  end.

Fixpoint released (evs : list Event) : list Url :=
  match evs with
  | [] => []
  | EvRelease u :: rest => u :: released rest
  | _ :: rest => released rest
  end.

(** ** Sample hosts *)

Definition seconds (k : nat) : Q := inject_Z (Z.of_nat k).

(** A host without any camera or file: nothing opens. *)
Definition closed_capture : VideoCapture := mkVideoCapture false [] 0 0.
Definition bare_host : Host :=
  mkHost (fun _ _ => closed_capture) seconds (fun _ => None).

(** A host with one camera at index 0 and a three-frame file that
    reports 30 frames a second. *)
Definition clip_frames : list Image :=
  [mkImage 120 160 3 (Shot 0); mkImage 120 160 3 (Shot 1); mkImage 120 160 3 (Shot 2)].
Definition studio_host : Host :=
  mkHost (fun u _ => match u with
                     | Index 0 => mkVideoCapture true clip_frames 0 25
                     | Address "res/stream-video.mp4" =>
                         mkVideoCapture true clip_frames 0 30
                     | _ => closed_capture
                     end)
         seconds (fun _ => None).

(** A handle as the constructor leaves it on the camera-less host. *)
Definition fresh_handle : MediaStream :=
  match MediaStream_init bare_host (Index 0) None None "FIT" None world0 with
  | (Ok s, _) => s
  | (Raise _, _) =>
      mkMediaStream None false true false [] (np_zeros 1 1 3) 60 (0, 0) "" (Index 0) None
  end.

(** The device behind a handle goes away: its capture stops being open. *)
Definition unplug (s : MediaStream) : MediaStream :=
  match source s with
  | Some v => set_source (Some (vc_release v)) s
  | None => s
  end.

(** The handle and the world after constructing a [MediaStream] for the
    file of [studio_host] without a size, a rate or a backend. *)
Definition file_url : Url := Address "res/stream-video.mp4".
Definition file_handle : Result MediaStream * World :=
  MediaStream_init studio_host file_url None None "FIT" None world0.

(** The registry and the world after [StreamManager.capture(0)] on
    [studio_host], starting from an empty registry. *)
Definition studio_registry : Registry * World :=
  snd (StreamManager_capture studio_host (Index 0) None None None ([], world0)).

(** A connection asking for [p] with the endpoint "/video.mjpg" registered. *)
Definition request (p : string) : Handler :=
  fresh_request p HTTP_1_x (endpointAdd "/video.mjpg" file_url []) None.

(** Whether device [i] opens on [host] with the default backend. *)
Definition opens (host : Host) (i : Z) : bool :=
  opened (cv2_VideoCapture host (Index i) CAP_ANY).

(** [Index 0 .. Index (n-1)] *)
Definition indices (n : nat) : list Url :=
  map (fun i => Index (Z.of_nat i)) (seq 0 n).

(** No source is opened once a release has happened. *)
Fixpoint opens_precede_releases (evs : list Event) : bool :=
  match evs with
  | [] => true
  | EvRelease _ :: rest => forallb (fun e => negb (is_open e)) rest
  | _ :: rest => opens_precede_releases rest
  end.

(** The handle a constructor call built, or the blank one when it raised. *)
Definition built (r : Result MediaStream * World) : MediaStream * World :=
  match r with
  | (Ok s, w) => (s, w)
  | (Raise _, w) => (fresh_handle, w)
  end.

(** The file of [studio_host], captured, and then polled three times:
    all three frames are read and the position is at the end. *)
Definition file_playing : MediaStream * World :=
  Eval vm_compute in snd (capture_ studio_host (built file_handle)).
Definition file_at_end : MediaStream * World :=
  Eval vm_compute in snd (run studio_host 3 unbound file_playing).

(** The camera of [studio_host], captured, and then lost. *)
Definition camera_playing : MediaStream * World :=
  Eval vm_compute in
    snd (capture_ studio_host
           (built (MediaStream_init studio_host (Index 0) None None "FIT" None world0))).
Definition camera_lost : MediaStream * World :=
  Eval vm_compute in (unplug (fst camera_playing), snd camera_playing).

(** Events that are neither a release, nor an open, nor the TIMEOUT line. *)
Definition calm (e : Event) : bool :=
  match e with
  | EvRelease _ => false
  | EvOpen _ _ => false
  | Log _ TIMEOUT _ => false
  | _ => true
  end.

(** A computation that adds calm events only, from every state. *)
Definition quiet {A} (m : Method MediaStream A) : Prop :=
  forall s w, exists evs,
    trace (world_after (m (s, w))) = evs ++ trace w /\ forallb calm evs = true.

(** ** Notions for the further properties *)

(** The backends handed to [cv2.VideoCapture], in a list of events. *)
Fixpoint apis_tried (evs : list Event) : list Z :=
  match evs with
  | [] => []
  | EvOpen _ x :: rest => x :: apis_tried rest
  | _ :: rest => apis_tried rest
  end.

(** The backends of [apis] up to and with the first one that opens [u]. *)
Fixpoint upto_first_open (host : Host) (u : Url) (apis : list Z) : list Z :=
  match apis with
  | [] => []
  | x :: rest =>
      if opened (cv2_VideoCapture host u x) then [x]
      else x :: upto_first_open host u rest
  end.

(** A computation that adds to the trace only events that pass [ok]. *)
Definition adds_only {A} (ok : Event -> bool) (m : Method MediaStream A) : Prop :=
  forall s w, exists evs,
    trace (world_after (m (s, w))) = evs ++ trace w /\ forallb ok evs = true.

(** A sleep of a duration that is not negative; every other event passes. *)
Definition rested (e : Event) : bool :=
  match e with
  | EvSleep d => Qle_bool 0 d
  | _ => true
  end.

(** A handle polls only a source it has: unpaused means [__source] is bound. *)
Definition wired (s : MediaStream) : Prop :=
  paused s = false -> source s <> None.

(** A computation that keeps a bound source bound and never looks up a
    method on [None]. *)
Definition keeps_source {A} (m : Method MediaStream A) : Prop :=
  forall s w, source s <> None ->
    source (after (m (s, w))) <> None /\
    outcome (m (s, w)) <> Raise AttributeError.

(** The writes that open the answer to a mapped GET. *)
Definition answer_head (v : Version) : list (list Wire) :=
  match v with
  | HTTP_0_9 => []
  | HTTP_1_x =>
      [[StatusLine 200;
        Header "Content-Type" "multipart/x-mixed-replace; boundary=frame";
        EndHeaders]]
  end.

(** The writes of one part of the multipart answer, for the frame [im]. *)
Definition part (v : Version) (im : Image) : list (list Wire) :=
  match v with
  | HTTP_0_9 => [[Boundary]; [Jpeg im]; [CRLF]]
  | HTTP_1_x =>
      [[Boundary];
       [Header "Content-Type" "image/jpeg"; ContentLength im; EndHeaders];
       [Jpeg im]; [CRLF]]
  end.

(** The writes [ticks] asks for: the parts of the cached frames, up to
    the first frame that cannot be encoded. *)
Fixpoint planned (v : Version) (ticks : list Tick) : list (list Wire) :=
  match ticks with
  | [] => []
  | t :: rest =>
      match cached t with
      | None => planned v rest
      | Some im =>
          if (rows im <=? 0) || (cols im <=? 0) then []
          else part v im ++ planned v rest
      end
  end.

(** Whether some cached frame of [ticks] cannot be encoded. *)
Fixpoint meets_bad (ticks : list Tick) : bool :=
  match ticks with
  | [] => false
  | t :: rest =>
      match cached t with
      | None => meets_bad rest
      | Some im =>
          if (rows im <=? 0) || (cols im <=? 0) then true else meets_bad rest
      end
  end.

(** The writes a connection of credit [c] takes of [l], and whether it
    breaks before the end of [l]. *)
Definition taken {A} (c : option nat) (l : list A) : list A :=
  match c with
  | None => l
  | Some n => firstn n l
  end.
Definition breaks {A} (c : option nat) (l : list A) : bool :=
  match c with
  | None => false
  | Some n => Nat.ltb n (List.length l)
  end.

(** * Properties *)

(** ** The size setter *)

Lemma np_clip_range x : 0 <= np_clip x 0 8192 <= 8192.
Proof. unfold np_clip. lia. Qed.

Lemma np_clip_zero x : np_clip x 0 8192 = 0 <-> x <= 0.
Proof. unfold np_clip. lia. Qed.

Lemma np_clip_inside x : 0 <= x <= 8192 -> np_clip x 0 8192 = x.
Proof. unfold np_clip. lia. Qed.

Lemma or_512_nonzero x : or_512 x <> 0.
Proof.
  destruct x as [v|]; cbn; [|lia].
  destruct (Z.eqb_spec v 0); lia.
Qed.

Lemma or_512_negative x : or_512 x <= 0 <-> exists v, x = Some v /\ v < 0.
Proof.
  destruct x as [v|]; cbn.
  - destruct (Z.eqb_spec v 0); split.
    + lia.
    + intros (v' & E & L). inversion E. lia.
    + intros L. exists v. split; [reflexivity | lia].
    + intros (v' & E & L). inversion E. lia.
  - split; [lia | intros (v & E & _); discriminate].
Qed.

(** The setter stores [(height, width)] in every case, also when the
    resize that follows raises. *)
Lemma size_setter_stores sz s w :
  size (after (size_setter sz (s, w))) =
  (np_clip (or_512 (snd (size_or_default sz))) 0 8192,
   np_clip (or_512 (fst (size_or_default sz))) 0 8192).
Proof.
  unfold size_setter, after, bind, update, self, lift. cbn.
  match goal with
  | |- context [if ?c then _ else _] => destruct c
  end; reflexivity.
Qed.

(** With a usable frame in the buffer and positive components the
    setter succeeds and leaves a frame of [dsize[1]] rows and
    [dsize[0]] columns, [dsize] being the stored [(height, width)]. *)
Lemma size_setter_resizes sz s w :
  0 < rows (frame_buf s) -> 0 < cols (frame_buf s) ->
  0 < or_512 (fst (size_or_default sz)) ->
  0 < or_512 (snd (size_or_default sz)) ->
  outcome (size_setter sz (s, w)) = Ok tt /\
  world_after (size_setter sz (s, w)) = w /\
  shape (frame_buf (after (size_setter sz (s, w)))) =
    (np_clip (or_512 (fst (size_or_default sz))) 0 8192,
     np_clip (or_512 (snd (size_or_default sz))) 0 8192,
     channels (frame_buf s)).
Proof.
  intros Hr Hc Hw Hh.
  unfold size_setter, after, world_after, outcome, bind, update, self, lift.
  cbn. unfold cv2_resize.
  set (W := np_clip (or_512 (fst (size_or_default sz))) 0 8192).
  set (H := np_clip (or_512 (snd (size_or_default sz))) 0 8192).
  assert (0 < W) by (subst W; unfold np_clip; lia).
  assert (0 < H) by (subst H; unfold np_clip; lia).
  destruct (Z.leb_spec H 0); [lia|].
  destruct (Z.leb_spec W 0); [lia|].
  destruct (Z.leb_spec (rows (frame_buf s)) 0); [lia|].
  destruct (Z.leb_spec (cols (frame_buf s)) 0); [lia|].
  cbn. destruct w. auto.
Qed.

(** C2, as stated, fails: assigning (0, 0), which lies in the range of
    the claim, leaves a frame of shape (512, 512, 3) and not (0, 0, 3):
    a component 0 is replaced by 512. *)
Lemma C2_size_shape_counterexample :
  0 <= 0 <= 8192 /\
  shape (frame_buf (after (size_setter (Some (Some 0, Some 0)) (fresh_handle, world0))))
    = (512, 512, 3) /\
  shape (frame_buf (after (size_setter (Some (Some 0, Some 0)) (fresh_handle, world0))))
    <> (0, 0, 3).
Proof.
  repeat split; try lia; try reflexivity.
  vm_compute. discriminate.
Qed.

(** C2, amended: for every (w, h) with 0 <= w, h <= 8192, assigning
    (w, h) to [size] of a handle whose buffer holds a non-empty
    three-channel frame succeeds at once and leaves a three-channel
    frame whose two other dimensions are w' and h', where a component 0
    counts as 512 (w' = w or 512, h' = h or 512).  Which of the two is
    the number of rows is left open here. *)
Theorem C2_size_shape_amended (s : MediaStream) (wd : World) (w h : Z) :
  0 <= w <= 8192 -> 0 <= h <= 8192 ->
  0 < rows (frame_buf s) -> 0 < cols (frame_buf s) ->
  channels (frame_buf s) = 3 ->
  let r := size_setter (Some (Some w, Some h)) (s, wd) in
  let w' := or_512 (Some w) in
  let h' := or_512 (Some h) in
  outcome r = Ok tt /\
  channels (frame_buf (after r)) = 3 /\
  ((rows (frame_buf (after r)), cols (frame_buf (after r))) = (h', w') \/
   (rows (frame_buf (after r)), cols (frame_buf (after r))) = (w', h')).
Proof.
  intros Hw Hh Hr Hc Hch r w' h'.
  assert (Pw : 0 < w' <= 8192)
    by (subst w'; cbn; destruct (Z.eqb_spec w 0); lia).
  assert (Ph : 0 < h' <= 8192)
    by (subst h'; cbn; destruct (Z.eqb_spec h 0); lia).
  destruct (size_setter_resizes (Some (Some w, Some h)) s wd Hr Hc) as (Ho & _ & Hs);
    [apply Pw | apply Ph |].
  subst r. split; [exact Ho|].
  unfold shape in Hs. cbn [size_or_default fst snd] in Hs.
  fold w' h' in Hs. rewrite !np_clip_inside in Hs by lia.
  inversion Hs as [[E1 E2 E3]]. rewrite E1, E2.
  split; [rewrite E3; exact Hch | right; reflexivity].
Qed.

Lemma C2_size_shape_amended_witness :
  let r := size_setter (Some (Some 640, Some 480)) (fresh_handle, world0) in
  outcome r = Ok tt /\
  channels (frame_buf (after r)) = 3 /\
  ((rows (frame_buf (after r)), cols (frame_buf (after r)))
     = (or_512 (Some 480), or_512 (Some 640)) \/
   (rows (frame_buf (after r)), cols (frame_buf (after r)))
     = (or_512 (Some 640), or_512 (Some 480))).
Proof.
  apply (C2_size_shape_amended fresh_handle world0 640 480);
    vm_compute; try reflexivity; split; discriminate.
Defined.

(** C10: in the size setter a component that is 0 or None is replaced by
    512 before it is clamped to [0, 8192]: assigning (0, 0), (None, None)
    or None stores 512 x 512, every stored component lies in [0, 8192],
    and a stored component is 0 exactly when the component passed is
    negative. *)
Theorem C10_size_defaults (s : MediaStream) (wd : World) :
  size (after (size_setter None (s, wd))) = (512, 512) /\
  size (after (size_setter (Some (Some 0, Some 0)) (s, wd))) = (512, 512) /\
  size (after (size_setter (Some (None, None)) (s, wd))) = (512, 512) /\
  forall a b : option Z,
    let stored := size (after (size_setter (Some (a, b)) (s, wd))) in
    snd stored = np_clip (or_512 a) 0 8192 /\
    fst stored = np_clip (or_512 b) 0 8192 /\
    0 <= snd stored <= 8192 /\ 0 <= fst stored <= 8192 /\
    (snd stored = 0 <-> exists v, a = Some v /\ v < 0) /\
    (fst stored = 0 <-> exists v, b = Some v /\ v < 0).
Proof.
  rewrite !size_setter_stores. repeat split; try reflexivity;
    try (cbn [snd fst]; rewrite size_setter_stores; cbn [snd fst size_or_default]).
  all: first [ reflexivity
             | apply np_clip_range
             | rewrite np_clip_zero; apply or_512_negative ].
Qed.

(** ** capture *)

Lemma set_source_own s : set_source (source s) s = s.
Proof. destruct s; reflexivity. Qed.

(** The backend loop changes the source and nothing else of the handle,
    and logs no error; [found] tells whether some backend opened the
    source, and the source left behind is the last one tried. *)
Lemma open_first_spec host apis : forall s w,
  exists v found evs,
    open_first host apis (s, w) =
      (Ok found, (set_source v s, mkWorld (clock w) (evs ++ trace w))) /\
    (found = true ->
       exists x, In x apis /\ v = Some (cv2_VideoCapture host (url s) x) /\
                 opened (cv2_VideoCapture host (url s) x) = true) /\
    (found = false ->
       forall x, In x apis -> opened (cv2_VideoCapture host (url s) x) = false) /\
    (found = false -> apis <> [] ->
       exists x, In x apis /\ v = Some (cv2_VideoCapture host (url s) x)) /\
    (apis = [] -> v = source s) /\
    errors evs = 0%nat.
Proof.
  induction apis as [|x rest IH]; intros s w.
  - exists (source s), false, []. rewrite set_source_own. destruct w. cbn.
    repeat split; try discriminate; try tauto; congruence.
  - cbn [open_first]. unfold bind, self, emit, update, the_source. cbn.
    unfold vc_isOpened.
    destruct (opened (cv2_VideoCapture host (url s) x)) eqn:E.
    + exists (Some (cv2_VideoCapture host (url s) x)), true, [EvOpen (url s) x].
      cbn. repeat split; try discriminate.
      intros _. exists x. auto.
    + destruct (IH (set_source (Some (cv2_VideoCapture host (url s) x)) s)
                   (mkWorld (clock w) (EvOpen (url s) x :: trace w)))
        as (v & found & evs & Hrun & Ht & Hf & Hn & He & Herr).
      exists v, found, (evs ++ [EvOpen (url s) x]).
      cbn in Hrun. rewrite Hrun. rewrite <- app_assoc. cbn.
      split; [reflexivity|].
      split.
      { intros Hfound. destruct (Ht Hfound) as (y & Hy & Hv & Ho).
        exists y. auto. }
      split.
      { intros Hfound y [<-|Hy]; [exact E | apply (Hf Hfound y Hy)]. }
      split.
      { intros Hfound _. destruct rest as [|y rest'].
        - exists x. rewrite (He eq_refl). auto.
        - destruct (Hn Hfound) as (z & Hz & Hv); [discriminate|].
          exists z. auto. }
      split; [discriminate|].
      unfold errors in *. rewrite filter_app, length_app, Herr. reflexivity.
Qed.

(** The three ways through [capture]. *)
Lemma capture_cases host sz f s w :
  (already_open s = true /\
   capture host sz f (s, w) = (Ok tt, (set_paused false s, w)))
  \/
  (already_open s = false /\
   (forall x, In x (backend s) -> opened (cv2_VideoCapture host (url s) x) = false) /\
   exists v evs,
     already_open (set_source v s) = false /\ errors evs = 0%nat /\
     capture host sz f (s, w) =
       (Ok tt, (set_running (Some false) (set_source v s),
                mkWorld (clock w)
                  (Log ERR CAPTURE_FAIL (Some (url s)) :: evs
                     ++ Log INFO CAPTURE (Some (url s)) :: trace w))))
  \/
  (already_open s = false /\
   exists x vc evs,
     In x (backend s) /\ vc = cv2_VideoCapture host (url s) x /\ opened vc = true /\
     errors evs = 0%nat /\
     capture host sz f (s, w) =
       (Ok tt, (set_paused false
                  (set_fps (py_max 1 (if truthy (fps s) then fps s else vc_fps vc))
                     (set_source (Some vc) s)),
                mkWorld (clock w)
                  (Log INFO CAPTURED (Some (url s)) :: EvSleep 1 :: evs
                     ++ Log INFO CAPTURE (Some (url s)) :: trace w)))).
Proof.
  unfold capture, bind, self, loginfo, emit. cbn [fst snd].
  destruct (already_open s) eqn:Hopen.
  - left. split; [reflexivity|]. destruct w; reflexivity.
  - right. cbn [fst snd].
    destruct (open_first_spec host (backend s) s
                (mkWorld (clock w) (Log INFO CAPTURE (Some (url s)) :: trace w)))
      as (v & found & evs & Hrun & Ht & Hf & Hn & He & Herr).
    cbn [clock trace] in Hrun. rewrite Hrun.
    destruct found; cbn [negb].
    + right. split; [reflexivity|].
      destruct (Ht eq_refl) as (x & Hx & Hv & Ho).
      exists x, (cv2_VideoCapture host (url s) x), evs.
      repeat split; auto. subst v.
      unfold time_sleep, emit, update, the_source, bind, self, ret.
      cbn. destruct (truthy (fps s)); cbn; reflexivity.
    + left. split; [reflexivity|]. split; [apply Hf; reflexivity|].
      exists v, evs. split.
      { destruct (backend s) as [|b bs] eqn:Hb.
        - rewrite (He eq_refl), set_source_own. exact Hopen.
        - destruct (Hn eq_refl) as (x & Hx & Hv); [discriminate|].
          subst v. cbn. apply Hf; [reflexivity | exact Hx]. }
      split; [exact Herr|].
      unfold logerr, emit, update. cbn. reflexivity.
Qed.

(** C9: [capture] takes [size] and [fps] and uses neither: whatever is
    passed, the call does what [capture()] does, the stored target size
    is the one before the call, and the rate after the call is the rate
    the handle had, or [max(1, rate or source rate)] computed at the
    open, never the [fps] passed. *)
Theorem C9_capture_ignores_arguments (host : Host) (s : MediaStream) (w : World)
    (sz : option (option Z * option Z)) (f : option Q) :
  let r := capture host sz f (s, w) in
  r = capture_ host (s, w) /\
  (forall sz' f', capture host sz' f' (s, w) = r) /\
  size (after r) = size s /\
  (fps (after r) = fps s \/
   exists vc, source (after r) = Some vc /\
     fps (after r) = py_max 1 (if truthy (fps s) then fps s else vc_fps vc)).
Proof.
  cbv zeta. split; [reflexivity|]. split; [reflexivity|].
  destruct (capture_cases host sz f s w)
    as [(_ & E) | [(_ & _ & v & evs & _ & _ & E) | (_ & x & vc & evs & _ & _ & _ & _ & E)]];
    rewrite E; cbn.
  - auto.
  - auto.
  - split; [reflexivity|]. right. exists vc. auto.
Qed.

(** C5: when the handle is not open already and no backend of its list
    opens the source, [capture] returns normally, logs exactly one error
    (the CAPTURE FAIL line), and leaves [isOpen] false. *)
Theorem C5_capture_open_failure (host : Host) (s : MediaStream) (w : World)
    (sz : option (option Z * option Z)) (f : option Q) :
  already_open s = false ->
  (forall x, In x (backend s) -> opened (cv2_VideoCapture host (url s) x) = false) ->
  let r := capture host sz f (s, w) in
  outcome r = Ok tt /\
  outcome (isOpen (after r, world_after r)) = Ok false /\
  exists evs,
    trace (world_after r) = evs ++ trace w /\
    errors evs = 1%nat /\
    In (Log ERR CAPTURE_FAIL (Some (url s))) evs.
Proof.
  intros Hclosed Hnone. cbv zeta.
  destruct (capture_cases host sz f s w)
    as [(Ho & _) | [(_ & _ & v & evs & Hv & Herr & E)
                   | (_ & x & vc & evs & Hx & -> & Hvc & _ & _)]].
  - congruence.
  - rewrite E. unfold outcome, after, world_after. cbn [fst snd trace].
    split; [reflexivity|]. split.
    + unfold isOpen, bind, self, ret. cbn.
      unfold already_open in Hv. cbn in Hv.
      destruct v; [rewrite Hv|]; reflexivity.
    + exists (Log ERR CAPTURE_FAIL (Some (url s)) :: evs
                ++ [Log INFO CAPTURE (Some (url s))]).
      split; [cbn; rewrite <- app_assoc; reflexivity|]. split; [|left; reflexivity].
      unfold errors in *. cbn. rewrite filter_app, length_app, Herr. reflexivity.
  - rewrite (Hnone x Hx) in Hvc. discriminate.
Qed.

Lemma C5_capture_open_failure_witness :
  let r := capture bare_host None None (fresh_handle, world0) in
  outcome r = Ok tt /\
  outcome (isOpen (after r, world_after r)) = Ok false /\
  exists evs,
    trace (world_after r) = evs ++ trace world0 /\
    errors evs = 1%nat /\
    In (Log ERR CAPTURE_FAIL (Some (url fresh_handle))) evs.
Proof.
  apply (C5_capture_open_failure bare_host fresh_handle world0 None None).
  - reflexivity.
  - intros x _. reflexivity.
Defined.

(** The constructor leaves [fps or 60] in the handle. *)
Lemma init_fps host u sz f m b w s w' :
  MediaStream_init host u sz f m b w = (Ok s, w') -> fps s = or_else f 60.
Proof.
  unfold MediaStream_init, size_setter, bind, update, self, lift. cbn.
  match goal with
  | |- context [if ?c then _ else _] => destruct c
  end; intros E; inversion E; reflexivity.
Qed.

(** A handle constructed without a rate runs at 60 after every
    [capture], whatever the source reports. *)
Lemma unset_fps_stays_60 host u sz m b w s w' :
  MediaStream_init host u sz None m b w = (Ok s, w') ->
  forall sz' f' w'', fps (after (capture host sz' f' (s, w''))) = 60%Q.
Proof.
  intros Hinit sz' f' w''. apply init_fps in Hinit. cbn in Hinit.
  destruct (capture_cases host sz' f' s w'')
    as [(_ & E) | [(_ & _ & v & evs & _ & _ & E) | (_ & x & vc & evs & _ & _ & _ & _ & E)]];
    rewrite E; cbn; rewrite Hinit; reflexivity.
Qed.

(** C4, on the code: a handle constructed for a file without [fps], on
    a host where the file opens and reports 30 frames a second.  After
    the successful [capture()] the source is open and reports 30, and the
    rate of the handle is the default 60, not [max(1, 30)]. *)
Theorem C4_source_rate_never_read :
  match file_handle with
  | (Ok s, w) =>
      let r := capture_ studio_host (s, w) in
      outcome r = Ok tt /\
      option_map vc_isOpened (source (after r)) = Some true /\
      option_map vc_fps (source (after r)) = Some 30%Q /\
      paused (after r) = false /\
      fps (after r) = 60%Q /\
      fps (after r) <> py_max 1 30
  | (Raise _, _) => False
  end.
Proof.
  vm_compute. repeat split; discriminate.
Qed.

(** ** StreamManager.pause *)

Lemma pause_missing (d : Registry) (w : World) (u : Url) :
  dict_get Url_eqb u d = None ->
  StreamManager_pause u (d, w) = (Raise AttributeError, (d, w)).
Proof.
  intros E. unfold StreamManager_pause, bind, self, raise. cbn. rewrite E. reflexivity.
Qed.

Lemma pause_present (d : Registry) (w : World) (u : Url) (s : MediaStream) :
  dict_get Url_eqb u d = Some s ->
  StreamManager_pause u (d, w) = (Ok tt, (d, w)).
Proof.
  intros E. unfold StreamManager_pause, bind, self, ret. cbn. rewrite E. reflexivity.
Qed.

(** C3, on the code: [pause] of an identifier that is not registered
    raises AttributeError (the body runs on the [None] the lookup
    returned), and [pause] of a registered, running handle changes
    nothing: the handle stays unpaused and nothing is logged. *)
Theorem C3_pause_test_inverted :
  dict_get Url_eqb (Index 7) (@nil (Url * MediaStream)) = None /\
  outcome (StreamManager_pause (Index 7) ([], world0)) = Raise AttributeError /\
  option_map paused (dict_get Url_eqb (Index 0) (fst studio_registry)) = Some false /\
  StreamManager_pause (Index 0) studio_registry = (Ok tt, studio_registry).
Proof.
  repeat split.
Qed.

(** ** StreamingHandler.do_GET *)

(** C8: a GET whose lower-cased path is not a key of the endpoint table
    returns at once: nothing is put on the connection (no status line,
    no header, no body), nothing is logged, and control goes back to
    the server, which closes the connection. *)
Theorem C8_unmapped_path_writes_nothing (h : Handler) (w : World) (ticks : list Tick) :
  dict_get String.eqb (lower (path h)) (outputs h) = None ->
  do_GET ticks (h, w) = (Ok Returned, (h, w)) /\
  wfile (after (do_GET ticks (h, w))) = wfile h.
Proof.
  intros E.
  assert (R : do_GET ticks (h, w) = (Ok Returned, (h, w))).
  { unfold do_GET, bind, self, ret. cbn. rewrite E. reflexivity. }
  rewrite R. split; reflexivity.
Qed.

Lemma C8_unmapped_path_writes_nothing_witness :
  do_GET [mkTick (Some (np_zeros 1 1 3))] (request "/Camera.mjpg", world0)
    = (Ok Returned, (request "/Camera.mjpg", world0)) /\
  wfile (after (do_GET [mkTick (Some (np_zeros 1 1 3))]
                       (request "/Camera.mjpg", world0))) = [].
Proof.
  apply (C8_unmapped_path_writes_nothing (request "/Camera.mjpg") world0).
  reflexivity.
Defined.

(** A registered path, in any case of letters, gets the status line first. *)
Example mapped_path_answers :
  rev (wfile (after (do_GET [] (request "/VIDEO.mjpg", world0)))) =
  [StatusLine 200;
   Header "Content-Type" "multipart/x-mixed-replace; boundary=frame";
   EndHeaders].
Proof. reflexivity. Qed.

(** ** StreamManager.devicescan *)

(** The events in front of the old trace [t0]. *)
Ltac strip_trace t t0 :=
  lazymatch t with
  | t0 => constr:(@nil Event)
  | ?e :: ?rest => let l := strip_trace rest t0 in constr:(e :: l)
  end.

(** Reads whether a device opened from what the host answered. *)
Ltac by_probe :=
  cbn;
  first [ reflexivity
        | match goal with
          | E : _ = mkVideoCapture _ _ _ _ |- _ => rewrite E; reflexivity
          end ].

(** Closes one path of the scan, [n] devices having opened. *)
Ltac close_scan n t0 :=
  lazymatch goal with
  | Hr : ?r = (Ok tt, (_, mkWorld _ ?t)) |- _ =>
      let l := strip_trace t t0 in
      let evs := eval cbv in (rev l) in
      subst r; split; [reflexivity|]; exists n, evs;
      repeat apply conj;
      [ lia
      | reflexivity
      | let i := fresh "i" in
        let Hi := fresh "Hi" in
        intros i Hi;
        do 5 (destruct i as [|i]; [first [by_probe | exfalso; lia]|]);
        exfalso; lia
      | intros Hn; first [ exfalso; lia | by_probe ]
      | reflexivity
      | reflexivity
      | reflexivity
      | reflexivity
      | repeat constructor
      | first [ reflexivity | intros Hn; cbn in Hn; discriminate ] ]
  end.

(** C7: [devicescan(True)] opens the device indices in order from 0 and
    stops at the first one that does not open: with [n] the number of
    leading indices that open, the indices opened are 0..n (0..4 when
    all five open), the handles registered are those of 0..n-1, each of
    them is released after the last open and is closed at the end, and
    no index beyond 4 is tried; when index 0 does not open, it is the
    only one tried. *)
Theorem C7_devicescan_probe (host : Host) (d : Registry) (w : World) :
  let r := devicescan host true (d, w) in
  outcome r = Ok tt /\
  exists (n : nat) (evs : list Event),
    (n <= 5)%nat /\
    trace (world_after r) = rev evs ++ trace w /\
    (forall i, (i < n)%nat -> opens host (Z.of_nat i) = true) /\
    ((n < 5)%nat -> opens host (Z.of_nat n) = false) /\
    probed evs = indices (Nat.min (S n) 5) /\
    dict_keys (after r) = indices n /\
    released evs = dict_keys (after r) /\
    opens_precede_releases evs = true /\
    Forall (fun s => already_open s = false) (dict_values (after r)) /\
    (opens host 0 = false -> probed evs = [Index 0]).
Proof.
  destruct host as [cv clk ios], w as [c0 t0].
  unfold opens, CAP_ANY. cbn [cv2_VideoCapture].
  remember (devicescan _ true _) as r eqn:Hr. cbv zeta.
  vm_compute in Hr.
  destruct (cv (Index 0) 0) as [[|] f0 p0 q0] eqn:E0; vm_compute in Hr;
    [| close_scan 0%nat t0].
  destruct (cv (Index 1) 0) as [[|] f1 p1 q1] eqn:E1; vm_compute in Hr;
    [| close_scan 1%nat t0].
  destruct (cv (Index 2) 0) as [[|] f2 p2 q2] eqn:E2; vm_compute in Hr;
    [| close_scan 2%nat t0].
  destruct (cv (Index 3) 0) as [[|] f3 p3 q3] eqn:E3; vm_compute in Hr;
    [| close_scan 3%nat t0].
  destruct (cv (Index 4) 0) as [[|] f4 p4 q4] eqn:E4; vm_compute in Hr;
    [| close_scan 4%nat t0].
  close_scan 5%nat t0.
Qed.

(** ** The polling loop *)

(** Runs the monad of one turn of the loop on the state at hand. *)
Ltac unroll :=
  repeat (progress
    (unfold bind, time_time, self, lift, py_div, read_frame, try_except,
       the_source, ret, raise, update, vc_read, rewind_at_end, watch_stall,
       vc_frame_count, vc_pos_frames, vc_isOpened, time_sleep, emit, vc_seek,
       outcome, after, world_after;
     cbn [fst snd source opened frames pos cap_fps set_source set_ret ret_flag
          quit paused backend frame_buf fps size mode url running negb
          clock trace])).

(** C6: one turn of the loop on an open file source whose position has
    reached the frame count.  The read fails, the turn ends normally
    and logs no error, the source is sought back to position 0, and the
    next read of the source returns frame 0. *)
Theorem C6_rewind_at_end (host : Host) (s : MediaStream) (w : World) (loc : Locals)
    (vc : VideoCapture) (f0 : Image) (rest : list Image) :
  source s = Some vc -> opened vc = true ->
  frames vc = f0 :: rest ->
  (List.length (frames vc) <= pos vc)%nat ->
  paused s = false -> truthy (fps s) = true ->
  let r := run_body host loc (s, w) in
  (exists loc', outcome r = Ok loc') /\
  ret_flag (after r) = false /\
  (exists vc', source (after r) = Some vc' /\
     opened vc' = true /\ frames vc' = frames vc /\ pos vc' = 0%nat /\
     fst (vc_read vc') = (true, Some f0)) /\
  (exists evs, trace (world_after r) = evs ++ trace w /\
     errors evs = 0%nat /\ In (EvSeek (url s) 0) evs).
Proof.
  intros Hsrc Hopen Hframes Hpos Hp Hfps.
  destruct s as [src q pz rf be fb fp sz md u rn]. cbn in Hsrc, Hp, Hfps. subst src pz.
  destruct vc as [o fr p cf]. cbn in Hopen, Hframes, Hpos. subst o.
  assert (Hnth : nth_error fr p = None) by (apply nth_error_None; exact Hpos).
  assert (Hle : (Z.of_nat (List.length fr) <=? Z.of_nat p) = true)
    by (apply Z.leb_le; lia).
  unfold truthy in Hfps. cbv zeta. unfold run_body. unroll.
  destruct (Qeq_bool fp 0); [discriminate|]. unroll.
  rewrite Hnth. unroll. rewrite Hle. unroll.
  split; [eexists; reflexivity|].
  split; [reflexivity|].
  split.
  - eexists. split; [reflexivity|]. cbn. rewrite Hframes. repeat split.
  - exists [EvSleep (py_max (clock_reading host (clock w) + 1 / fp
                              - clock_reading host (S (clock w))) 0);
            EvSeek u 0].
    split; [reflexivity|]. split; [reflexivity|]. right. left. reflexivity.
Qed.

Lemma C6_rewind_at_end_witness :
  let r := run_body studio_host unbound file_at_end in
  (exists loc', outcome r = Ok loc') /\
  ret_flag (after r) = false /\
  (exists vc', source (after r) = Some vc' /\
     opened vc' = true /\ frames vc' = clip_frames /\ pos vc' = 0%nat /\
     fst (vc_read vc') = (true, Some (mkImage 120 160 3 (Shot 0)))) /\
  (exists evs, trace (world_after r) = evs ++ trace (snd file_at_end) /\
     errors evs = 0%nat /\ In (EvSeek file_url 0) evs).
Proof.
  apply (C6_rewind_at_end studio_host (fst file_at_end) (snd file_at_end) unbound
           (mkVideoCapture true clip_frames 3 30)
           (mkImage 120 160 3 (Shot 0))
           [mkImage 120 160 3 (Shot 1); mkImage 120 160 3 (Shot 2)]);
    reflexivity.
Defined.

(** The turn after the rewind shows frame 0 again. *)
Example file_loops :
  let r := run studio_host 2 unbound file_at_end in
  ret_flag (after r) = true /\ picture (frame_buf (after r)) = Shot 0 /\
  shape (frame_buf (after r)) = (512, 512, 3).
Proof. vm_compute. auto. Qed.

(** *** What the loop never does *)

Lemma quiet_ret {A} (a : A) : quiet (ret a).
Proof. intros s w. exists []. split; reflexivity. Qed.

Lemma quiet_raise {A} (e : Exn) : quiet (@raise _ A e).
Proof. intros s w. exists []. split; reflexivity. Qed.

Lemma quiet_self : quiet self.
Proof. intros s w. exists []. split; reflexivity. Qed.

Lemma quiet_update (f : MediaStream -> MediaStream) : quiet (update f).
Proof. intros s w. exists []. split; reflexivity. Qed.

Lemma quiet_lift {A} (r : Result A) : quiet (lift r).
Proof. intros s w. exists []. split; reflexivity. Qed.

Lemma quiet_time_time host : quiet (time_time host).
Proof. intros s w. exists []. split; reflexivity. Qed.

Lemma quiet_emit (e : Event) : calm e = true -> quiet (emit e).
Proof. intros He s w. exists [e]. cbn. rewrite He. split; reflexivity. Qed.

Lemma quiet_bind {A B} (m : Method MediaStream A) (k : A -> Method MediaStream B) :
  quiet m -> (forall a, quiet (k a)) -> quiet (bind m k).
Proof.
  intros Hm Hk s w. unfold bind.
  destruct (Hm s w) as (e1 & T1 & C1).
  destruct (m (s, w)) as [[a|e] [s1 w1]]; unfold world_after in *; cbn in T1 |- *.
  - destruct (Hk a s1 w1) as (e2 & T2 & C2).
    exists (e2 ++ e1). unfold world_after in T2. rewrite T2, T1, app_assoc.
    split; [reflexivity|]. rewrite forallb_app, C1, C2. reflexivity.
  - exists e1. auto.
Qed.

Lemma quiet_try_except {A} (m h : Method MediaStream A) :
  quiet m -> quiet h -> quiet (try_except m h).
Proof.
  intros Hm Hh s w. unfold try_except.
  destruct (Hm s w) as (e1 & T1 & C1).
  destruct (m (s, w)) as [[a|e] [s1 w1]]; unfold world_after in *; cbn in T1 |- *.
  - exists e1. auto.
  - destruct (Hh s1 w1) as (e2 & T2 & C2).
    exists (e2 ++ e1). unfold world_after in T2. rewrite T2, T1, app_assoc.
    split; [reflexivity|]. rewrite forallb_app, C1, C2. reflexivity.
Qed.

(** Splits a computation along its binds and its tests. *)
Ltac quiet_steps :=
  repeat first
    [ apply quiet_ret | apply quiet_raise | apply quiet_self | apply quiet_update
    | apply quiet_lift | apply quiet_time_time
    | apply quiet_emit; reflexivity
    | apply quiet_try_except
    | apply quiet_bind; [| intros ?]
    | match goal with
      | |- quiet (if ?c then _ else _) => destruct c
      | |- quiet (match ?x with _ => _ end) => destruct x
      | |- quiet (let '(_, _) := ?x in _) => destruct x
      end ].

(** A turn of the loop does not read the locals the turn before left:
    [waste] and [timeout] are assigned anew before they are used. *)
Lemma run_body_forgets_locals host loc loc' : run_body host loc = run_body host loc'.
Proof. reflexivity. Qed.

(** A turn of the loop neither releases the source, nor opens one, nor
    logs TIMEOUT, in whatever state of the handle and of the device and
    whatever the clock reads. *)
Lemma run_body_quiet host loc : quiet (run_body host loc).
Proof.
  unfold run_body, read_frame, store_frame, rewind_at_end, watch_stall,
    the_source, time_sleep.
  quiet_steps.
Qed.

(** So does every number of turns. *)
Lemma run_quiet host n : forall loc, quiet (run host n loc).
Proof.
  induction n as [|n IH]; intros loc; cbn [run].
  - apply quiet_ret.
  - apply quiet_bind; [apply quiet_self | intros s].
    destruct (quit s).
    + unfold loginfo. quiet_steps.
    + apply quiet_bind; [apply run_body_quiet | intros loc']. apply IH.
Qed.

(** C1, on the code: the camera of a captured, running handle goes
    away, and the loop polls it for ten turns while every call of
    [time.time()] reads a second later.  Every read fails on a source
    that is not open, far more than 2 seconds pass, and the loop is
    still running with the same closed source: it has released nothing,
    opened nothing and logged no TIMEOUT. *)
Theorem C1_stall_never_reopens :
  let r := run studio_host 10 unbound camera_lost in
  already_open (fst camera_lost) = false /\
  paused (fst camera_lost) = false /\
  outcome r = Ok false /\
  (2 < seconds (clock (world_after r)) - seconds (clock (snd camera_lost)))%Q /\
  ret_flag (after r) = false /\
  source (after r) = source (fst camera_lost) /\
  exists evs,
    trace (world_after r) = evs ++ trace (snd camera_lost) /\
    forallb calm evs = true /\
    released evs = [] /\ probed evs = [].
Proof.
  cbv zeta.
  repeat apply conj; try (vm_compute; reflexivity).
  exists (firstn 20 (trace (world_after (run studio_host 10 unbound camera_lost)))).
  repeat apply conj; vm_compute; reflexivity.
Qed.

(** * Further properties *)

(** ** Construction and the size property *)

Lemma truthy_or_else f : truthy (or_else f 60) = true.
Proof.
  destruct f as [q|]; cbn; [|reflexivity].
  destruct (truthy q) eqn:E; [exact E | reflexivity].
Qed.

Lemma backend_list_single b : exists x, backend_list b = [x].
Proof.
  destruct b as [x|]; cbn; [destruct (x =? 0)|]; eexists; reflexivity.
Qed.

Lemma or_512_positive x :
  (forall v, x = Some v -> 0 <= v) -> 0 < or_512 x.
Proof.
  intros H. destruct x as [v|]; cbn; [|lia].
  specialize (H v eq_refl). destruct (Z.eqb_spec v 0); lia.
Qed.

(** X1: a constructor call whose size has no negative component
    succeeds without touching the world, and leaves a handle that is
    closed and paused, with a rate that is not zero, one backend, a
    target within 1..8192 and a black placeholder frame of the target's
    dimensions. *)
Theorem init_establishes (host : Host) (u : Url) (sz : option (option Z * option Z))
    (f : option Q) (m : string) (b : option Z) (w : World) :
  (forall v, fst (size_or_default sz) = Some v -> 0 <= v) ->
  (forall v, snd (size_or_default sz) = Some v -> 0 <= v) ->
  exists s,
    MediaStream_init host u sz f m b w = (Ok s, w) /\
    source s = None /\ paused s = true /\ ret_flag s = false /\ quit s = false /\
    truthy (fps s) = true /\
    (exists x, backend s = [x]) /\
    1 <= fst (size s) <= 8192 /\ 1 <= snd (size s) <= 8192 /\
    shape (frame_buf s) = (snd (size s), fst (size s), 3) /\
    picture (frame_buf s) = Black.
Proof.
  intros Hw Hh.
  apply or_512_positive in Hw. apply or_512_positive in Hh.
  unfold MediaStream_init, size_setter, bind, update, self, lift. cbn.
  set (W := np_clip (or_512 (fst (size_or_default sz))) 0 8192).
  set (H := np_clip (or_512 (snd (size_or_default sz))) 0 8192).
  assert (PW : 1 <= W <= 8192) by (subst W; unfold np_clip; lia).
  assert (PH : 1 <= H <= 8192) by (subst H; unfold np_clip; lia).
  destruct (Z.leb_spec H 0); [lia|].
  destruct (Z.leb_spec W 0); [lia|].
  cbn. eexists. split; [destruct w; reflexivity|]. cbn.
  repeat split; try lia; try reflexivity.
  - apply truthy_or_else.
  - apply backend_list_single.
Qed.

Lemma init_establishes_witness :
  exists s,
    MediaStream_init studio_host (Address "12") (Some (Some 0, None))
      (Some 0%Q) "FIT" (Some 700) world0 = (Ok s, world0) /\
    source s = None /\ paused s = true /\ ret_flag s = false /\ quit s = false /\
    truthy (fps s) = true /\
    (exists x, backend s = [x]) /\
    1 <= fst (size s) <= 8192 /\ 1 <= snd (size s) <= 8192 /\
    shape (frame_buf s) = (snd (size s), fst (size s), 3) /\
    picture (frame_buf s) = Black.
Proof.
  apply (init_establishes studio_host (Address "12") (Some (Some 0, None))
           (Some 0%Q) "FIT" (Some 700) world0);
    cbn; intros v E; inversion E; lia.
Defined.

(** X2: assigning a size with a negative component raises the OpenCV
    error after the target has been stored: the target then holds a 0,
    and the frame in the buffer is the one from before. *)
Theorem negative_size_raises (s : MediaStream) (w : World)
    (a b : option Z) (v : Z) :
  v < 0 -> a = Some v \/ b = Some v ->
  let r := size_setter (Some (a, b)) (s, w) in
  outcome r = Raise cv2_error /\
  frame_buf (after r) = frame_buf s /\
  (fst (size (after r)) = 0 \/ snd (size (after r)) = 0) /\
  world_after r = w.
Proof.
  intros Hv Hab. cbv zeta.
  assert (Hz : np_clip (or_512 a) 0 8192 = 0 \/ np_clip (or_512 b) 0 8192 = 0).
  { destruct Hab as [-> | ->]; [left | right];
      apply np_clip_zero; apply or_512_negative; exists v; auto. }
  unfold size_setter, outcome, after, world_after, bind, update, self, lift. cbn.
  set (W := np_clip (or_512 a) 0 8192) in *.
  set (H := np_clip (or_512 b) 0 8192) in *.
  assert (E : ((H <=? 0) || (W <=? 0))%bool = true).
  { destruct Hz as [-> | ->]; cbn; [apply orb_true_r | reflexivity]. }
  rewrite E. cbn. repeat split; try reflexivity; try tauto; destruct w; reflexivity.
Qed.

Lemma negative_size_raises_witness :
  let r := size_setter (Some (Some (-1), Some 100)) (fresh_handle, world0) in
  outcome r = Raise cv2_error /\
  frame_buf (after r) = frame_buf fresh_handle /\
  (fst (size (after r)) = 0 \/ snd (size (after r)) = 0) /\
  world_after r = world0.
Proof.
  apply (negative_size_raises fresh_handle world0 (Some (-1)) (Some 100) (-1)).
  - lia.
  - left; reflexivity.
Defined.

(** X3: the getter returns the target as (height, width) and the setter
    reads its argument as (width, height): assigning a handle's size to
    itself swaps the two components of the target, and doing it twice
    restores it. *)
Theorem size_assigned_to_itself_swaps (s : MediaStream) (w w' : World) :
  1 <= fst (size s) <= 8192 -> 1 <= snd (size s) <= 8192 ->
  let once := after (size_setter (Some (Some (fst (size s)), Some (snd (size s)))) (s, w)) in
  let twice := after (size_setter (Some (Some (fst (size once)), Some (snd (size once))))
                        (once, w')) in
  size once = (snd (size s), fst (size s)) /\ size twice = size s.
Proof.
  intros H1 H2. cbv zeta.
  assert (E : forall x, 1 <= x <= 8192 -> np_clip (or_512 (Some x)) 0 8192 = x).
  { intros x Hx. cbn. destruct (Z.eqb_spec x 0); [lia|]. apply np_clip_inside. lia. }
  repeat (rewrite !size_setter_stores; cbn [size_or_default fst snd]).
  rewrite !E by assumption. split; [reflexivity|].
  destruct (size s); reflexivity.
Qed.

Lemma size_assigned_to_itself_swaps_witness :
  let s := after (size_setter (Some (Some 640, Some 480)) (fresh_handle, world0)) in
  let once := after (size_setter (Some (Some (fst (size s)), Some (snd (size s)))) (s, world0)) in
  let twice := after (size_setter (Some (Some (fst (size once)), Some (snd (size once))))
                        (once, world0)) in
  size once = (snd (size s), fst (size s)) /\ size twice = size s.
Proof.
  apply (size_assigned_to_itself_swaps
           (after (size_setter (Some (Some 640, Some 480)) (fresh_handle, world0)))
           world0 world0); vm_compute; split; discriminate.
Defined.

(** ** release and capture *)

(** X4: [release] never raises and does nothing on a handle that never
    had a source; otherwise it closes the source and logs RELEASED, also
    when the source was closed already.  It leaves the paused flag as it
    was, and the quit flag too: the polling thread goes on. *)
Theorem release_closes (s : MediaStream) (w : World) :
  let r := release (s, w) in
  outcome r = Ok tt /\
  already_open (after r) = false /\
  paused (after r) = paused s /\ quit (after r) = quit s /\
  (source s = None -> r = (Ok tt, (s, w))) /\
  (source s <> None ->
     trace (world_after r) =
       Log WARN RELEASED (Some (url s)) :: EvRelease (url s) :: trace w) /\
  after (release (after r, world_after r)) = after r.
Proof.
  cbv zeta. unfold release, bind, self, emit, update, logwarn, ret, emit,
    outcome, after, world_after, already_open.
  destruct s as [src q pz rf be fb fp sz md u rn]. cbn.
  destruct src as [v|]; cbn.
  - repeat split; discriminate.
  - repeat split. intros H. contradiction H. reflexivity.
Qed.

(** X5: a [capture] that left the handle open is final: calling
    [capture] again, with any arguments, changes neither the handle nor
    the world; no device is opened a second time. *)
Theorem capture_again_changes_nothing (host : Host) (s : MediaStream) (w : World)
    (sz sz' : option (option Z * option Z)) (f f' : option Q) :
  let r := capture host sz f (s, w) in
  already_open (after r) = true ->
  capture host sz' f' (after r, world_after r) = (Ok tt, (after r, world_after r)).
Proof.
  cbv zeta. intros Hopen.
  assert (Hp : paused (after (capture host sz f (s, w))) = false).
  { destruct (capture_cases host sz f s w)
      as [(_ & E) | [(_ & _ & v & evs & Hv & _ & E)
                    | (_ & x & vc & evs & _ & _ & _ & _ & E)]];
      rewrite E in Hopen |- *; cbn in Hopen |- *; try reflexivity.
    unfold already_open in Hv, Hopen. cbn in Hv, Hopen. congruence. }
  destruct (capture_cases host sz' f' (after (capture host sz f (s, w)))
              (world_after (capture host sz f (s, w))))
    as [(_ & E) | [(Hc & _) | (Hc & _)]]; try congruence.
  rewrite E. f_equal. f_equal.
  destruct (after (capture host sz f (s, w))). cbn in Hp. subst. reflexivity.
Qed.

Lemma capture_again_changes_nothing_witness :
  let r := capture studio_host None None (built file_handle) in
  capture studio_host (Some (Some 64, Some 48)) (Some 5%Q) (after r, world_after r)
    = (Ok tt, (after r, world_after r)).
Proof.
  apply (capture_again_changes_nothing studio_host (fst (built file_handle))
           (snd (built file_handle)) None (Some (Some 64, Some 48)) None (Some 5%Q)).
  reflexivity.
Defined.

Lemma apis_tried_app a b : apis_tried (a ++ b) = apis_tried a ++ apis_tried b.
Proof.
  induction a as [|e a IH]; [reflexivity|].
  destruct e; cbn; rewrite IH; reflexivity.
Qed.

Lemma probed_app a b : probed (a ++ b) = probed a ++ probed b.
Proof.
  induction a as [|e a IH]; [reflexivity|].
  destruct e; cbn; rewrite IH; reflexivity.
Qed.

(** The backends the loop of [capture] hands to OpenCV. *)
Lemma open_first_order host apis : forall s w,
  exists evs,
    trace (world_after (open_first host apis (s, w))) = evs ++ trace w /\
    apis_tried (rev evs) = upto_first_open host (url s) apis /\
    probed (rev evs) = map (fun _ => url s) (upto_first_open host (url s) apis).
Proof.
  induction apis as [|x rest IH]; intros s w.
  - exists []. repeat split.
  - cbn [open_first upto_first_open].
    unfold bind, self, emit, update, the_source, world_after. cbn.
    unfold vc_isOpened.
    destruct (opened (cv2_VideoCapture host (url s) x)) eqn:E.
    + exists [EvOpen (url s) x]. repeat split.
    + destruct (IH (set_source (Some (cv2_VideoCapture host (url s) x)) s)
                   (mkWorld (clock w) (EvOpen (url s) x :: trace w)))
        as (evs & Ht & Ha & Hp).
      exists (evs ++ [EvOpen (url s) x]).
      unfold world_after in Ht. cbn in Ht, Ha, Hp. rewrite Ht.
      rewrite <- app_assoc, rev_app_distr, apis_tried_app, probed_app, Ha, Hp.
      repeat split.
Qed.

(** X6: a [capture] on a handle that is not open hands the backends of
    the preference list to OpenCV in order, each with the handle's url,
    and stops with the first one that opens the source. *)
Theorem capture_tries_backends_in_order (host : Host) (s : MediaStream) (w : World)
    (sz : option (option Z * option Z)) (f : option Q) :
  already_open s = false ->
  exists evs,
    trace (world_after (capture host sz f (s, w))) = evs ++ trace w /\
    apis_tried (rev evs) = upto_first_open host (url s) (backend s) /\
    probed (rev evs) = map (fun _ => url s) (upto_first_open host (url s) (backend s)).
Proof.
  intros Hc.
  destruct (open_first_order host (backend s) s
              (mkWorld (clock w) (Log INFO CAPTURE (Some (url s)) :: trace w)))
    as (evs & Ht & Ha & Hp).
  unfold capture, bind, self, loginfo, emit, world_after in *. cbn [fst snd] in *.
  rewrite Hc. cbn [fst snd] in *.
  destruct (open_first host (backend s) _) as [[found|e] [s1 w1]]; cbn [snd trace] in *.
  - destruct found; cbn [negb].
    + unfold time_sleep, emit, update, the_source, bind, self, ret. cbn.
      destruct (truthy (fps s1)); cbn.
      * exists (Log INFO CAPTURED (Some (url s1)) :: EvSleep 1 :: evs
                  ++ [Log INFO CAPTURE (Some (url s))]).
        rewrite Ht. cbn. rewrite <- app_assoc. split; [reflexivity|].
        rewrite rev_app_distr. cbn.
        rewrite !apis_tried_app, !probed_app, Ha, Hp. cbn.
        rewrite !app_nil_r. split; reflexivity.
      * destruct (source s1);
          [ exists (Log INFO CAPTURED (Some (url s1)) :: EvSleep 1 :: evs
                      ++ [Log INFO CAPTURE (Some (url s))])
          | exists (EvSleep 1 :: evs ++ [Log INFO CAPTURE (Some (url s))]) ];
          cbn; rewrite Ht; cbn; rewrite <- app_assoc; (split; [reflexivity|]);
          rewrite rev_app_distr; cbn;
          rewrite !apis_tried_app, !probed_app, Ha, Hp; cbn;
          rewrite !app_nil_r; split; reflexivity.
    + unfold logerr, emit, update, bind. cbn.
      exists (Log ERR CAPTURE_FAIL (Some (url s)) :: evs
                ++ [Log INFO CAPTURE (Some (url s))]).
      rewrite Ht. cbn. rewrite <- app_assoc. split; [reflexivity|].
      rewrite rev_app_distr. cbn.
      rewrite !apis_tried_app, !probed_app, Ha, Hp. cbn.
      rewrite !app_nil_r. split; reflexivity.
  - exists (evs ++ [Log INFO CAPTURE (Some (url s))]).
    rewrite Ht. rewrite <- app_assoc. split; [reflexivity|].
    rewrite rev_app_distr. cbn. rewrite Ha, Hp. split; reflexivity.
Qed.

Lemma capture_tries_backends_in_order_witness :
  exists evs,
    trace (world_after (capture studio_host None None (built file_handle)))
      = evs ++ trace (snd (built file_handle)) /\
    apis_tried (rev evs) = upto_first_open studio_host file_url [CAP_ANY] /\
    probed (rev evs) = map (fun _ => file_url) (upto_first_open studio_host file_url [CAP_ANY]).
Proof.
  apply (capture_tries_backends_in_order studio_host (fst (built file_handle))
           (snd (built file_handle)) None None).
  reflexivity.
Defined.

(** ** More on the polling loop *)




(** X8: a turn of the loop with a good read stores the frame read,
    fitted to the target: the buffer then has [size[1]] rows and
    [size[0]] columns whatever the dimensions of the frame were, the
    success flag is set, the source has moved on by one frame, and the
    turn leaves no stall timer. *)
Theorem good_read_fits_target (host : Host) (loc : Locals) (s : MediaStream)
    (w : World) (vc : VideoCapture) (im : Image) :
  source s = Some vc -> opened vc = true ->
  nth_error (frames vc) (pos vc) = Some im ->
  paused s = false -> truthy (fps s) = true ->
  0 < fst (size s) -> 0 < snd (size s) -> 0 < rows im -> 0 < cols im ->
  let r := run_body host loc (s, w) in
  (exists d, outcome r = Ok (mkLocals (Some d) None)) /\
  ret_flag (after r) = true /\
  rows (frame_buf (after r)) = snd (size s) /\
  cols (frame_buf (after r)) = fst (size s) /\
  channels (frame_buf (after r)) = channels im /\
  picture (frame_buf (after r)) = picture im /\
  source (after r) = Some (mkVideoCapture true (frames vc) (S (pos vc)) (cap_fps vc)) /\
  size (after r) = size s.
Proof.
  intros Hsrc Hopen Hnth Hp Hfps Hs0 Hs1 Hr Hc.
  destruct s as [src q pz rf be fb fp [sh sw] md u rn].
  cbn in Hsrc, Hp, Hfps, Hs0, Hs1. subst src pz.
  destruct vc as [o fr p cf]. cbn in Hopen, Hnth. subst o.
  unfold truthy in Hfps. cbv zeta. unfold run_body. unroll.
  destruct (Qeq_bool fp 0); [discriminate|]. unroll.
  rewrite Hnth. unroll. unfold store_frame. unroll.
  destruct (negb (rows im =? sw) || negb (cols im =? sh))%bool eqn:Hfit.
  - unfold cv2_resize.
    destruct (Z.leb_spec sh 0); [lia|]. destruct (Z.leb_spec sw 0); [lia|].
    destruct (Z.leb_spec (rows im) 0); [lia|].
    destruct (Z.leb_spec (cols im) 0); [lia|].
    cbn. unroll. repeat split. eexists. reflexivity.
  - apply orb_false_elim in Hfit. destruct Hfit as [H1 H2].
    apply negb_false_iff, Z.eqb_eq in H1. apply negb_false_iff, Z.eqb_eq in H2.
    unroll. cbn. repeat split; auto. eexists. reflexivity.
Qed.

Lemma good_read_fits_target_witness :
  let r := run_body studio_host unbound file_playing in
  (exists d, outcome r = Ok (mkLocals (Some d) None)) /\
  ret_flag (after r) = true /\
  rows (frame_buf (after r)) = snd (size (fst file_playing)) /\
  cols (frame_buf (after r)) = fst (size (fst file_playing)) /\
  channels (frame_buf (after r)) = channels (mkImage 120 160 3 (Shot 0)) /\
  picture (frame_buf (after r)) = picture (mkImage 120 160 3 (Shot 0)) /\
  source (after r) = Some (mkVideoCapture true clip_frames 1 30) /\
  size (after r) = size (fst file_playing).
Proof.
  apply (good_read_fits_target studio_host unbound (fst file_playing) (snd file_playing)
           (mkVideoCapture true clip_frames 0 30) (mkImage 120 160 3 (Shot 0)));
    reflexivity.
Defined.

(** X9: with a zero in the target (what a negative size leaves behind,
    see [negative_size_raises]) the first good read ends the polling
    thread: the resize raises the OpenCV error out of the loop, and the
    buffer keeps the frame from before. *)
Theorem zero_target_ends_loop (host : Host) (loc : Locals) (s : MediaStream)
    (w : World) (vc : VideoCapture) (im : Image) :
  source s = Some vc -> opened vc = true ->
  nth_error (frames vc) (pos vc) = Some im ->
  paused s = false -> truthy (fps s) = true ->
  fst (size s) = 0 \/ snd (size s) = 0 ->
  0 < rows im -> 0 < cols im ->
  let r := run_body host loc (s, w) in
  outcome r = Raise cv2_error /\ frame_buf (after r) = frame_buf s.
Proof.
  intros Hsrc Hopen Hnth Hp Hfps Hz Hr Hc.
  destruct s as [src q pz rf be fb fp [sh sw] md u rn].
  cbn in Hsrc, Hp, Hfps, Hz. subst src pz.
  destruct vc as [o fr p cf]. cbn in Hopen, Hnth. subst o.
  unfold truthy in Hfps. cbv zeta. unfold run_body. unroll.
  destruct (Qeq_bool fp 0); [discriminate|]. unroll.
  rewrite Hnth. unroll. unfold store_frame. unroll.
  assert (Hfit : (negb (rows im =? sw) || negb (cols im =? sh))%bool = true).
  { destruct Hz as [-> | ->]; apply orb_true_iff; [right | left];
      apply negb_true_iff, Z.eqb_neq; lia. }
  rewrite Hfit. unfold cv2_resize.
  assert (Hd : ((sh <=? 0) || (sw <=? 0))%bool = true).
  { destruct Hz as [-> | ->]; cbn; [reflexivity | apply orb_true_r]. }
  rewrite Hd. cbn. split; reflexivity.
Qed.

Lemma zero_target_ends_loop_witness :
  let s := after (size_setter (Some (Some (-1), Some 100)) file_playing) in
  let r := run_body studio_host unbound (s, world0) in
  outcome r = Raise cv2_error /\ frame_buf (after r) = frame_buf s.
Proof.
  apply (zero_target_ends_loop studio_host unbound
           (after (size_setter (Some (Some (-1), Some 100)) file_playing)) world0
           (mkVideoCapture true clip_frames 0 30) (mkImage 120 160 3 (Shot 0)));
    try reflexivity.
  right. reflexivity.
Defined.

(** *** What a turn adds to the trace, and what it keeps *)

Section AddsOnly.

Variable ok : Event -> bool.

Lemma adds_nothing {A} (m : Method MediaStream A) :
  (forall s w, trace (world_after (m (s, w))) = trace w) -> adds_only ok m.
Proof. intros H s w. exists []. rewrite H. split; reflexivity. Qed.

Lemma adds_only_emit (e : Event) : ok e = true -> adds_only ok (emit e).
Proof. intros He s w. exists [e]. cbn. rewrite He. split; reflexivity. Qed.

Lemma adds_only_bind {A B} (m : Method MediaStream A) (k : A -> Method MediaStream B) :
  adds_only ok m -> (forall a, adds_only ok (k a)) -> adds_only ok (bind m k).
Proof.
  intros Hm Hk s w. unfold bind.
  destruct (Hm s w) as (e1 & T1 & C1).
  destruct (m (s, w)) as [[a|e] [s1 w1]]; unfold world_after in *; cbn in T1 |- *.
  - destruct (Hk a s1 w1) as (e2 & T2 & C2).
    exists (e2 ++ e1). unfold world_after in T2. rewrite T2, T1, app_assoc.
    split; [reflexivity|]. rewrite forallb_app, C1, C2. reflexivity.
  - exists e1. auto.
Qed.

Lemma adds_only_try_except {A} (m h : Method MediaStream A) :
  adds_only ok m -> adds_only ok h -> adds_only ok (try_except m h).
Proof.
  intros Hm Hh s w. unfold try_except.
  destruct (Hm s w) as (e1 & T1 & C1).
  destruct (m (s, w)) as [[a|e] [s1 w1]]; unfold world_after in *; cbn in T1 |- *.
  - exists e1. auto.
  - destruct (Hh s1 w1) as (e2 & T2 & C2).
    exists (e2 ++ e1). unfold world_after in T2. rewrite T2, T1, app_assoc.
    split; [reflexivity|]. rewrite forallb_app, C1, C2. reflexivity.
Qed.

End AddsOnly.

Lemma py_max_0_rested x : Qle_bool 0 (py_max x 0) = true.
Proof.
  unfold py_max. destruct (Qle_bool 0 x) eqn:E; [exact E | reflexivity].
Qed.

(** X10: the loop never asks for a negative sleep: whatever the clock
    reads and whatever the rate is, every sleep of a turn lasts 0 or
    more. *)
Theorem run_body_sleeps_not_negative (host : Host) (loc : Locals) :
  adds_only rested (run_body host loc).
Proof.
  unfold run_body, read_frame, store_frame, rewind_at_end, watch_stall,
    the_source, time_sleep.
  repeat first
    [ apply adds_nothing; intros; reflexivity
    | apply adds_only_emit; first [ reflexivity | apply py_max_0_rested ]
    | apply adds_only_try_except
    | apply adds_only_bind; [| intros ?]
    | match goal with
      | |- adds_only _ (if ?c then _ else _) => destruct c
      | |- adds_only _ (match ?x with _ => _ end) => destruct x
      | |- adds_only _ (let '(_, _) := ?x in _) => destruct x
      end ].
Qed.

Section KeepsSource.

Lemma keeps_source_bind {A B} (m : Method MediaStream A) (k : A -> Method MediaStream B) :
  keeps_source m -> (forall a, keeps_source (k a)) -> keeps_source (bind m k).
Proof.
  intros Hm Hk s w Hs. unfold bind.
  destruct (Hm s w Hs) as (S1 & O1).
  destruct (m (s, w)) as [[a|e] [s1 w1]]; unfold after, outcome in *; cbn in S1, O1 |- *.
  - apply (Hk a s1 w1 S1).
  - split; [exact S1|]. intros E. apply O1. inversion E. reflexivity.
Qed.

Lemma keeps_source_try_except {A} (m h : Method MediaStream A) :
  keeps_source m -> keeps_source h -> keeps_source (try_except m h).
Proof.
  intros Hm Hh s w Hs. unfold try_except.
  destruct (Hm s w Hs) as (S1 & O1).
  destruct (m (s, w)) as [[a|e] [s1 w1]]; unfold after, outcome in *; cbn in S1, O1 |- *.
  - split; [exact S1 | discriminate].
  - apply (Hh s1 w1 S1).
Qed.

Lemma keeps_source_ret {A} (a : A) : keeps_source (ret a).
Proof. intros s w Hs. split; [exact Hs | discriminate]. Qed.

Lemma keeps_source_self : keeps_source self.
Proof. intros s w Hs. split; [exact Hs | discriminate]. Qed.

Lemma keeps_source_emit (e : Event) : keeps_source (emit e).
Proof. intros s w Hs. split; [exact Hs | discriminate]. Qed.

Lemma keeps_source_time_time host : keeps_source (time_time host).
Proof. intros s w Hs. split; [exact Hs | discriminate]. Qed.

Lemma keeps_source_update (f : MediaStream -> MediaStream) :
  (forall s, source s <> None -> source (f s) <> None) -> keeps_source (update f).
Proof. intros Hf s w Hs. split; [apply Hf, Hs | discriminate]. Qed.

Lemma keeps_source_the_source : keeps_source the_source.
Proof.
  intros s w Hs. unfold the_source, bind, self, after, outcome. cbn.
  destruct (source s) eqn:E; [|contradiction].
  cbn. rewrite E. split; discriminate.
Qed.

Lemma keeps_source_py_div (a b : Q) : keeps_source (lift (py_div a b)).
Proof.
  intros s w Hs. unfold lift, py_div, after, outcome. cbn.
  split; [exact Hs | destruct (Qeq_bool b 0); discriminate].
Qed.

Lemma keeps_source_resize (im : Image) (d : Z * Z) : keeps_source (lift (cv2_resize im d)).
Proof.
  intros s w Hs. unfold lift, cv2_resize, after, outcome. cbn.
  split; [exact Hs|]. destruct d as [a b].
  destruct ((a <=? 0) || (b <=? 0) || (rows im <=? 0) || (cols im <=? 0))%bool;
    discriminate.
Qed.

End KeepsSource.

(** A turn of the loop on a handle that has a source. *)
Lemma run_body_keeps_source host loc : keeps_source (run_body host loc).
Proof.
  unfold run_body, read_frame, store_frame, rewind_at_end, watch_stall, time_sleep.
  repeat first
    [ apply keeps_source_ret | apply keeps_source_self | apply keeps_source_emit
    | apply keeps_source_time_time | apply keeps_source_the_source
    | apply keeps_source_py_div | apply keeps_source_resize
    | apply keeps_source_update; intros; cbn; first [assumption | discriminate]
    | apply keeps_source_try_except
    | apply keeps_source_bind; [| intros ?]
    | match goal with
      | |- keeps_source (if ?c then _ else _) => destruct c
      | |- keeps_source (match ?x with _ => _ end) => destruct x
      | |- keeps_source (let '(_, _) := ?x in _) => destruct x
      end ].
Qed.

(** X11: the handle is wired (unpaused only with a source bound) when
    the constructor returns it, and the size setter, [capture], [pause]
    and [release] keep it so. *)
Theorem methods_keep_wired (host : Host) (s : MediaStream) (w : World) :
  (forall u sz f m b s0 w0,
     MediaStream_init host u sz f m b w = (Ok s0, w0) -> wired s0) /\
  (wired s ->
   (forall sz, wired (after (size_setter sz (s, w)))) /\
   (forall sz f, wired (after (capture host sz f (s, w)))) /\
   wired (after (pause (s, w))) /\
   wired (after (release (s, w)))).
Proof.
  split.
  - intros u sz f m b s0 w0. unfold MediaStream_init, size_setter, bind, update, self, lift.
    cbn.
    match goal with
    | |- context [if ?c then _ else _] => destruct c
    end; cbn; intros E; inversion E; intros Hp; discriminate Hp.
  - intros Hw. repeat split.
    + intros sz. unfold wired, size_setter, bind, update, self, lift, after in *. cbn.
      match goal with
      | |- context [if ?c then _ else _] => destruct c
      end; cbn; exact Hw.
    + intros sz f.
      destruct (capture_cases host sz f s w)
        as [(Ho & E) | [(Hc & Hn & v & evs & Hv & _ & E)
                       | (_ & x & vc & evs & _ & _ & _ & _ & E)]];
        rewrite E; unfold wired, after; cbn.
      * intros _. unfold already_open in Ho. destruct (source s); [discriminate|].
        discriminate Ho.
      * intros Hp. specialize (Hw Hp).
        destruct v as [vv|]; [discriminate|].
        revert E. unfold capture, bind, self, loginfo, emit. cbn [fst snd]. rewrite Hc.
        cbn [fst snd].
        destruct (open_first_spec host (backend s) s
                    (mkWorld (clock w) (Log INFO CAPTURE (Some (url s)) :: trace w)))
          as (v2 & found2 & evs2 & Hrun2 & Ht2 & _ & Hn2 & He2 & _).
        cbn [clock trace] in Hrun2. rewrite Hrun2.
        destruct found2; cbn [negb].
        -- destruct (Ht2 eq_refl) as (y & _ & -> & _).
           unfold time_sleep, emit, update, the_source, bind, self, ret. cbn.
           destruct (truthy (fps s)); cbn; intros E; inversion E.
        -- unfold logerr, emit, update, bind. cbn. intros E. inversion E as [[E1 E2]].
           destruct (backend s) as [|b0 bs].
           ++ rewrite (He2 eq_refl) in E1. congruence.
           ++ destruct (Hn2 eq_refl) as (y & _ & ->); [discriminate|]. discriminate E1.
      * intros _. discriminate.
    + unfold wired, pause, bind, update, self, logwarn, emit, after. cbn.
      intros Hp. discriminate Hp.
    + unfold wired, release, bind, update, self, logwarn, emit, ret, after in *.
      cbn. destruct (source s) eqn:E; cbn; [intros _; discriminate|].
      rewrite E. exact Hw.
Qed.

(** X12: on a wired handle a turn of the loop never looks up a method
    on [None] (the thread cannot die of AttributeError), and the handle
    is wired after the turn. *)
Theorem wired_loop_never_dereferences_None (host : Host) (loc : Locals)
    (s : MediaStream) (w : World) :
  wired s ->
  let r := run_body host loc (s, w) in
  outcome r <> Raise AttributeError /\ wired (after r).
Proof.
  intros Hw. cbv zeta. destruct (paused s) eqn:Hp.
  - unfold run_body. unroll. rewrite Hp.
    destruct (Qeq_bool (fps s) 0); unroll.
    + split; [discriminate | exact Hw].
    + split; [discriminate | exact Hw].
  - destruct (run_body_keeps_source host loc s w (Hw Hp)) as (Hs & Ho).
    split; [exact Ho|]. intros _. exact Hs.
Qed.

Lemma wired_loop_never_dereferences_None_witness :
  let r := run_body studio_host unbound camera_lost in
  outcome r <> Raise AttributeError /\ wired (after r).
Proof.
  apply (wired_loop_never_dereferences_None studio_host unbound
           (fst camera_lost) (snd camera_lost)).
  intros _. discriminate.
Defined.

(** ** Dictionaries and the registry *)

Section DictFacts.

Context {K V : Type} (eqb : K -> K -> bool).
Hypothesis eqb_eq : forall a b, eqb a b = true <-> a = b.

Lemma dict_get_set_same (k : K) (v : V) (d : list (K * V)) :
  dict_get eqb k (dict_set eqb k v d) = Some v.
Proof.
  assert (R : eqb k k = true) by (apply eqb_eq; reflexivity).
  induction d as [|[k' v'] d IH]; cbn.
  - rewrite R. reflexivity.
  - destruct (eqb k k') eqn:E; cbn; rewrite E; [reflexivity | exact IH].
Qed.

Lemma dict_get_set_other (k k' : K) (v : V) (d : list (K * V)) :
  k' <> k -> dict_get eqb k' (dict_set eqb k v d) = dict_get eqb k' d.
Proof.
  intros N.
  assert (F : eqb k' k = false).
  { destruct (eqb k' k) eqn:E; [apply eqb_eq in E; contradiction | reflexivity]. }
  induction d as [|[k0 v0] d IH]; cbn.
  - rewrite F. reflexivity.
  - destruct (eqb k k0) eqn:E; cbn.
    + destruct (eqb k' k0) eqn:E'; [|reflexivity].
      apply eqb_eq in E, E'. congruence.
    + destruct (eqb k' k0); [reflexivity | exact IH].
Qed.

Lemma dict_set_present (k : K) (v v' : V) (d : list (K * V)) :
  dict_get eqb k d = Some v -> dict_keys (dict_set eqb k v' d) = dict_keys d.
Proof.
  unfold dict_keys. induction d as [|[k0 v0] d IH]; cbn; [discriminate|].
  destruct (eqb k k0); cbn; [reflexivity|].
  intros H. rewrite (IH H). reflexivity.
Qed.

Lemma dict_set_unchanged (k : K) (v : V) (d : list (K * V)) :
  dict_get eqb k d = Some v -> dict_set eqb k v d = d.
Proof.
  induction d as [|[k0 v0] d IH]; cbn; [discriminate|].
  destruct (eqb k k0); [intros E; inversion E; reflexivity|].
  intros H. rewrite (IH H). reflexivity.
Qed.

Lemma dict_set_absent (k : K) (v : V) (d : list (K * V)) :
  dict_get eqb k d = None -> dict_set eqb k v d = d ++ [(k, v)].
Proof.
  induction d as [|[k0 v0] d IH]; cbn; [reflexivity|].
  destruct (eqb k k0); [discriminate|].
  intros H. rewrite (IH H). reflexivity.
Qed.

Lemma dict_set_twice (k : K) (v v' : V) (d : list (K * V)) :
  dict_set eqb k v' (dict_set eqb k v d) = dict_set eqb k v' d.
Proof.
  assert (R : eqb k k = true) by (apply eqb_eq; reflexivity).
  induction d as [|[k0 v0] d IH]; cbn.
  - rewrite R. reflexivity.
  - destruct (eqb k k0) eqn:E; cbn; rewrite E; [reflexivity|].
    rewrite IH. reflexivity.
Qed.

Lemma dict_get_in (k : K) (v : V) (d : list (K * V)) :
  dict_get eqb k d = Some v -> In (k, v) d.
Proof.
  induction d as [|[k0 v0] d IH]; cbn; [discriminate|].
  destruct (eqb k k0) eqn:E.
  - intros H. inversion H. apply eqb_eq in E. subst. left. reflexivity.
  - intros H. right. apply IH, H.
Qed.

End DictFacts.

Lemma Url_eqb_eq (a b : Url) : Url_eqb a b = true <-> a = b.
Proof.
  destruct a as [i|s], b as [j|t]; cbn.
  - rewrite Z.eqb_eq. split; congruence.
  - split; discriminate.
  - split; discriminate.
  - rewrite String.eqb_eq. split; congruence.
Qed.

Lemma capture_returns host sz f s w : outcome (capture host sz f (s, w)) = Ok tt.
Proof.
  destruct (capture_cases host sz f s w)
    as [(_ & E) | [(_ & _ & v & evs & _ & _ & E) | (_ & x & vc & evs & _ & _ & _ & _ & E)]];
    rewrite E; reflexivity.
Qed.

(** X13: [StreamManager.frame] never raises and changes neither the
    registry nor the world; for an identifier that is not registered
    it answers (False, a black 512 x 512 x 3 frame), and for a
    registered one the success flag and the buffer of its handle. *)
Theorem registry_frame_is_a_lookup (d : Registry) (w : World) (u : Url) :
  let r := StreamManager_frame u (d, w) in
  after r = d /\ world_after r = w /\
  outcome r = match dict_get Url_eqb u d with
              | None => Ok (false, np_zeros 512 512 3)
              | Some s => Ok (ret_flag s, frame_buf s)
              end.
Proof.
  cbv zeta. unfold StreamManager_frame, bind, self, on_entry, frame, ret,
    after, world_after, outcome. cbn.
  destruct (dict_get Url_eqb u d) as [s|] eqn:E; cbn.
  - rewrite (dict_set_unchanged Url_eqb u s d E). repeat split.
  - repeat split.
Qed.

(** X14: [StreamManager.capture] of a registered identifier captures
    the handle that is registered: no handle is constructed, the keys of
    the registry stay as they are, the size, rate and backend passed are
    not looked at, and the handle returned is the one the registry holds
    afterwards. *)
Theorem registry_capture_reuses (host : Host) (d : Registry) (w : World) (u : Url)
    (s : MediaStream) (sz : option (option Z * option Z)) (f : option Q)
    (b : option Z) :
  dict_get Url_eqb u d = Some s ->
  let r := StreamManager_capture host u sz f b (d, w) in
  let c := capture_ host (s, w) in
  outcome r = Ok (after c) /\
  after r = dict_set Url_eqb u (after c) d /\
  world_after r = world_after c /\
  dict_keys (after r) = dict_keys d /\
  dict_get Url_eqb u (after r) = Some (after c).
Proof.
  intros Hget. cbv zeta.
  pose proof (capture_returns host None (Some 60%Q) s w) as Hok.
  unfold StreamManager_capture, bind, self, on_entry, ret. cbn [fst snd].
  rewrite Hget. cbn [fst snd].
  unfold capture_ in *. unfold outcome, after, world_after in *.
  destruct (capture host None (Some 60%Q) (s, w)) as [rc [s' w']].
  cbn in Hok. subst rc. cbn.
  rewrite (dict_get_set_same Url_eqb Url_eqb_eq). cbn.
  repeat split.
  - apply (dict_set_present Url_eqb u s s' d Hget).
  - apply (dict_get_set_same Url_eqb Url_eqb_eq).
Qed.

Lemma registry_capture_reuses_witness :
  let r := StreamManager_capture studio_host (Index 0) (Some (Some 64, Some 48))
             (Some 5%Q) (Some 700) studio_registry in
  let c := capture_ studio_host (fst camera_playing, snd studio_registry) in
  outcome r = Ok (after c) /\
  after r = dict_set Url_eqb (Index 0) (after c) (fst studio_registry) /\
  world_after r = world_after c /\
  dict_keys (after r) = dict_keys (fst studio_registry) /\
  dict_get Url_eqb (Index 0) (after r) = Some (after c).
Proof.
  apply (registry_capture_reuses studio_host (fst studio_registry) (snd studio_registry)
           (Index 0) (fst camera_playing) (Some (Some 64, Some 48)) (Some 5%Q) (Some 700)).
  reflexivity.
Defined.

(** X15: [StreamManager.capture] of an identifier that is not
    registered constructs a handle with the arguments passed.  When the
    constructor returns, the handle is captured and registered last,
    under the identifier as it was passed; when the constructor raises
    (a negative size), the exception reaches the caller and the registry
    is as before. *)
Theorem registry_capture_creates (host : Host) (d : Registry) (w : World) (u : Url)
    (sz : option (option Z * option Z)) (f : option Q) (b : option Z) :
  dict_get Url_eqb u d = None ->
  let r := StreamManager_capture host u sz f b (d, w) in
  match MediaStream_init host u sz f "FIT" b w with
  | (Ok s0, w0) =>
      let c := capture_ host (s0, w0) in
      r = (Ok (after c), (d ++ [(u, after c)], world_after c))
  | (Raise e, w0) => r = (Raise e, (d, w0))
  end.
Proof.
  intros Hget. cbv zeta.
  unfold StreamManager_capture, new_stream, bind, self, on_entry, update, ret.
  cbn [fst snd]. rewrite Hget. cbn [fst snd].
  destruct (MediaStream_init host u sz f "FIT" b w) as [[s0|e] w0]; [|reflexivity].
  cbn [fst snd].
  pose proof (capture_returns host None (Some 60%Q) s0 w0) as Hok.
  unfold capture_ in *. unfold outcome, after, world_after in *.
  destruct (capture host None (Some 60%Q) (s0, w0)) as [rc [s' w']].
  cbn in Hok. subst rc. cbn.
  rewrite (dict_set_twice Url_eqb Url_eqb_eq).
  rewrite (dict_get_set_same Url_eqb Url_eqb_eq).
  rewrite (dict_set_absent Url_eqb u s' d Hget). reflexivity.
Qed.

Lemma registry_capture_creates_witness :
  let r := StreamManager_capture studio_host file_url None None None studio_registry in
  match MediaStream_init studio_host file_url None None "FIT" None (snd studio_registry) with
  | (Ok s0, w0) =>
      let c := capture_ studio_host (s0, w0) in
      r = (Ok (after c), (fst studio_registry ++ [(file_url, after c)], world_after c))
  | (Raise e, w0) => r = (Raise e, (fst studio_registry, w0))
  end.
Proof.
  apply (registry_capture_creates studio_host (fst studio_registry) (snd studio_registry)
           file_url None None None).
  reflexivity.
Defined.

(** ** Scans *)

(** X16: a scan starts from an empty registry whatever was registered
    before, and without probing ([StreamManager()] as it is called by
    default) it registers a handle for each of the indices 0..4, all
    paused and without a source: no device is opened, nothing is
    released, and the only log line is SCAN. *)
Theorem scan_without_probe (host : Host) (d : Registry) (w : World) :
  (forall probing, devicescan host probing (d, w) = devicescan host probing ([], w)) /\
  let r := devicescan host false (d, w) in
  outcome r = Ok tt /\
  outcome (streams (after r, world_after r)) = Ok (indices 5) /\
  Forall (fun s => source s = None /\ paused s = true /\ size s = (512, 512))
         (dict_values (after r)) /\
  trace (world_after r) = Log INFO SCAN None :: trace w.
Proof.
  split; [reflexivity|].
  destruct host as [cv clk ios], w as [c0 t0]. cbv zeta.
  remember (devicescan _ false _) as r eqn:Hr. vm_compute in Hr. subst r.
  repeat split. repeat constructor.
Qed.

(** X17: after a probing scan no registered handle is active, though
    each of them is unpaused: every device that opened was registered,
    captured and then released, so its thread goes on polling a closed
    source. *)
Theorem probing_scan_leaves_none_active (host : Host) (d : Registry) (w : World) :
  let r := devicescan host true (d, w) in
  outcome (active (after r, world_after r)) = Ok [] /\
  Forall (fun s => paused s = false /\ already_open s = false /\ source s <> None)
         (dict_values (after r)).
Proof.
  destruct host as [cv clk ios], w as [c0 t0]. cbv zeta.
  remember (devicescan _ true _) as r eqn:Hr. vm_compute in Hr.
  destruct (cv (Index 0) 0) as [[|] f0 p0 q0]; vm_compute in Hr;
    [| subst r; split; [reflexivity | repeat constructor; discriminate]].
  destruct (cv (Index 1) 0) as [[|] f1 p1 q1]; vm_compute in Hr;
    [| subst r; split; [reflexivity | repeat constructor; discriminate]].
  destruct (cv (Index 2) 0) as [[|] f2 p2 q2]; vm_compute in Hr;
    [| subst r; split; [reflexivity | repeat constructor; discriminate]].
  destruct (cv (Index 3) 0) as [[|] f3 p3 q3]; vm_compute in Hr;
    [| subst r; split; [reflexivity | repeat constructor; discriminate]].
  destruct (cv (Index 4) 0) as [[|] f4 p4 q4]; vm_compute in Hr;
    subst r; (split; [reflexivity | repeat constructor; discriminate]).
Qed.

(** ** The streaming handler and its endpoints *)

(** One write on a connection. *)
Lemma wfile_write_eq (block : list Wire) (h : Handler) (w : World) :
  wfile_write block (h, w) =
  match credit h with
  | Some O => (Raise BrokenPipeError, (h, w))
  | Some (S n) =>
      (Ok tt, (mkHandler (path h) (request_version h) (outputs h)
                 (headers_buffer h) (rev block ++ wfile h) (Some n), w))
  | None =>
      (Ok tt, (mkHandler (path h) (request_version h) (outputs h)
                 (headers_buffer h) (rev block ++ wfile h) None, w))
  end.
Proof.
  unfold wfile_write, bind, self, raise, update. cbn.
  destruct (credit h) as [[|n]|]; reflexivity.
Qed.

(** What the loop of [do_GET] puts on the connection. *)
Lemma stream_loop_writes (ticks : list Tick) : forall (h : Handler) (w : World),
  headers_buffer h = [] ->
  let r := stream_loop ticks (h, w) in
  let plan := planned (request_version h) ticks in
  let ends := (breaks (credit h) plan || meets_bad ticks)%bool in
  rev (wfile (after r)) = rev (wfile h) ++ List.concat (taken (credit h) plan) /\
  outcome r = Ok (if ends then Returned else Streaming) /\
  trace (world_after r) = (if ends then [Log ERR HTTP_ERROR None] else []) ++ trace w.
Proof.
  induction ticks as [|t rest IH]; intros h w Hb; cbv zeta.
  - cbn. destruct (credit h) as [n|]; cbn; rewrite ?firstn_nil, app_nil_r;
      repeat split; destruct n; reflexivity.
  - cbn [stream_loop planned meets_bad]. destruct (cached t) as [im|]; [|apply IH, Hb].
    destruct h as [p v out hb wf c]. cbn in Hb. subst hb.
    cbn [request_version credit wfile].
    unfold write_part, try_except, bind, lift, cv2_imencode.
    destruct ((rows im <=? 0) || (cols im <=? 0))%bool eqn:Hbad.
    + cbn. destruct c as [n|]; cbn; rewrite ?firstn_nil, ?app_nil_r, ?orb_true_r;
        repeat split.
    + destruct v, c as [[|[|[|[|n]]]]|];
        unfold send_header, send_content_length, end_headers, flush_headers,
          buffer_header, bind, self, update, ret, logerr, emit;
        rewrite ?wfile_write_eq; cbn;
        rewrite ?wfile_write_eq; cbn;
        rewrite ?wfile_write_eq; cbn;
        rewrite ?wfile_write_eq; cbn;
        try (rewrite ?app_nil_r; repeat rewrite <- app_assoc; cbn; repeat split; reflexivity).
      all: lazymatch goal with
           | |- context [stream_loop ?r (?h', ?w')] =>
               specialize (IH h' w' eq_refl); cbv zeta in IH;
               cbn [request_version credit wfile] in IH;
               destruct IH as (Hw & Ho & Ht); rewrite Hw, Ho, Ht
           end.
      all: cbn; repeat rewrite <- app_assoc; cbn; repeat split.
Qed.

(** X18: the answer to a GET of a registered path (in any case of
    letters), on a request that comes with nothing buffered.  With an
    HTTP version in the request line the answer opens with one write of
    the status line, the multipart content type and the end of the
    headers, and each cached frame that can be encoded gives four
    writes: the boundary, the headers of the part (JPEG content type,
    length of that frame's JPEG, blank line), the JPEG and a line end.
    For a request without a version no status line and no header is
    written at all, only boundary, JPEG and line end.  The connection
    takes the writes in this order as far as its credit goes.  A turn
    that finds no cached frame writes nothing.  The handler returns
    when a write in the loop meets a broken connection or a frame
    cannot be encoded, and logs exactly one error then; when already
    the opening write meets a broken connection, the exception leaves
    [do_GET] and nothing is logged. *)
Theorem mapped_path_streams_parts (h : Handler) (w : World) (ticks : list Tick)
    (data : Endpoint) :
  dict_get String.eqb (lower (path h)) (outputs h) = Some data ->
  headers_buffer h = [] ->
  let r := do_GET ticks (h, w) in
  let v := request_version h in
  let plan := answer_head v ++ planned v ticks in
  let head_fails := match v, credit h with
                    | HTTP_1_x, Some O => true
                    | _, _ => false
                    end in
  let ends := (breaks (credit h) plan || meets_bad ticks)%bool in
  rev (wfile (after r)) = rev (wfile h) ++ List.concat (taken (credit h) plan) /\
  outcome r = (if head_fails then Raise BrokenPipeError
               else Ok (if ends then Returned else Streaming)) /\
  trace (world_after r) =
    (if head_fails then []
     else if ends then [Log ERR HTTP_ERROR None] else []) ++ trace w.
Proof.
  intros Hget Hb.
  destruct h as [p v out hb wf c]. cbn in Hb, Hget. subst hb.
  cbv zeta. unfold do_GET, bind, self. cbn [fst snd path outputs]. rewrite Hget.
  cbn [request_version credit wfile].
  destruct v, c as [[|n]|];
    unfold send_response, send_header, end_headers, flush_headers,
      buffer_header, bind, self, update, ret;
    rewrite ?wfile_write_eq; cbn;
    rewrite ?wfile_write_eq; cbn;
    try (rewrite ?app_nil_r; repeat split; reflexivity).
  all: lazymatch goal with
       | |- context [stream_loop ?r (?h', ?w')] =>
           let IH := fresh "IH" in
           pose proof (stream_loop_writes r h' w' eq_refl) as IH;
           cbv zeta in IH; cbn [request_version credit wfile] in IH;
           unfold outcome, after, world_after in IH |- *;
           destruct IH as (Hw & Ho & Ht); rewrite Hw, Ho, Ht
       end.
  all: cbn; repeat rewrite <- app_assoc; cbn; repeat split.
Qed.

Lemma mapped_path_streams_parts_witness :
  let ticks := [mkTick None; mkTick (Some (np_zeros 2 2 3));
                mkTick (Some (np_zeros 4 4 3)); mkTick (Some (np_zeros 8 8 3))] in
  let h := fresh_request "/VIDEO.mjpg" HTTP_1_x
             (endpointAdd "/video.mjpg" file_url []) (Some 7%nat) in
  let r := do_GET ticks (h, world0) in
  let v := request_version h in
  let plan := answer_head v ++ planned v ticks in
  let head_fails := match v, credit h with
                    | HTTP_1_x, Some O => true
                    | _, _ => false
                    end in
  let ends := (breaks (credit h) plan || meets_bad ticks)%bool in
  rev (wfile (after r)) = rev (wfile h) ++ List.concat (taken (credit h) plan) /\
  outcome r = (if head_fails then Raise BrokenPipeError
               else Ok (if ends then Returned else Streaming)) /\
  trace (world_after r) =
    (if head_fails then []
     else if ends then [Log ERR HTTP_ERROR None] else []) ++ trace world0.
Proof.
  apply (mapped_path_streams_parts
           (fresh_request "/VIDEO.mjpg" HTTP_1_x
              (endpointAdd "/video.mjpg" file_url []) (Some 7%nat))
           world0 _ (mkEndpoint file_url None));
    reflexivity.
Defined.

(** A request without an HTTP version gets the parts bare. *)
Example versionless_request_gets_bare_parts :
  rev (wfile (after (do_GET [mkTick (Some (np_zeros 2 2 3))]
                       (fresh_request "/video.mjpg" HTTP_0_9
                          (endpointAdd "/video.mjpg" file_url []) None, world0)))) =
  [Boundary; Jpeg (np_zeros 2 2 3); CRLF].
Proof. reflexivity. Qed.

(** A path with a capital of latin-1 beyond ASCII is lower-cased too. *)
Example latin1_path_is_lowered :
  let upper := String "/" (String "V" (String (ascii_of_nat 201) EmptyString)) in
  let lowered := String "/" (String "v" (String (ascii_of_nat 233) EmptyString)) in
  lower upper = lowered /\
  outcome (do_GET [] (fresh_request upper HTTP_1_x
                        (endpointAdd lowered file_url []) None, world0)) = Ok Streaming.
Proof. split; reflexivity. Qed.

Lemma lower_char_idempotent (c : ascii) : lower_char (lower_char c) = lower_char c.
Proof. destruct c as [[] [] [] [] [] [] [] []]; reflexivity. Qed.

Lemma lower_idempotent (s : string) : lower (lower s) = lower s.
Proof.
  induction s as [|c s IH]; cbn; [reflexivity|].
  rewrite lower_char_idempotent, IH. reflexivity.
Qed.

(** X19: [endpointAdd] stores an entry for the stream with an empty
    frame cache under the name as given: looking the name up finds that
    entry (an older entry of the name is replaced, with its cache), and
    the entries of the other names are untouched. *)
Theorem endpointAdd_lookup (name : string) (stream : Url)
    (out : list (string * Endpoint)) :
  dict_get String.eqb name (endpointAdd name stream out) = Some (mkEndpoint stream None) /\
  (forall other, other <> name ->
     dict_get String.eqb other (endpointAdd name stream out) = dict_get String.eqb other out) /\
  (forall e, dict_get String.eqb name out = Some e ->
     dict_keys (endpointAdd name stream out) = dict_keys out).
Proof.
  unfold endpointAdd. repeat split.
  - apply (dict_get_set_same String.eqb String.eqb_eq).
  - intros other N. apply (dict_get_set_other String.eqb String.eqb_eq). exact N.
  - intros e He. apply (dict_set_present String.eqb name e _ out He).
Qed.

(** X20: the handler looks up the lower-cased path, and [endpointAdd]
    stores the name as given: when every name of the table differs from
    its lower-cased form, no GET is ever answered, whatever its path,
    the registered names included. *)
Theorem uppercase_endpoints_unreachable (h : Handler) (w : World) (ticks : list Tick) :
  (forall key e, In (key, e) (outputs h) -> lower key <> key) ->
  do_GET ticks (h, w) = (Ok Returned, (h, w)).
Proof.
  intros Hup. unfold do_GET, bind, self, ret. cbn [fst snd].
  destruct (dict_get String.eqb (lower (path h)) (outputs h)) as [e|] eqn:E;
    [|reflexivity].
  apply (dict_get_in String.eqb String.eqb_eq) in E.
  exfalso. apply (Hup _ _ E). apply lower_idempotent.
Qed.

Lemma uppercase_endpoints_unreachable_witness :
  do_GET [mkTick (Some (np_zeros 2 2 3))]
    (fresh_request "/Video.mjpg" HTTP_1_x (endpointAdd "/Video.mjpg" file_url []) None,
     world0)
  = (Ok Returned,
     (fresh_request "/Video.mjpg" HTTP_1_x (endpointAdd "/Video.mjpg" file_url []) None,
      world0)).
Proof.
  apply (uppercase_endpoints_unreachable
           (fresh_request "/Video.mjpg" HTTP_1_x (endpointAdd "/Video.mjpg" file_url []) None)
           world0).
  intros key e [E | []]. inversion E. discriminate.
Defined.
